(** * color-3d-ai: the model ingestion and interaction-state pipeline

    A shallow embedding of [frontend/src/App.tsx] (the slider viewer) and of
    the dual-mode viewer (ring-handle gizmo / orbit-only), followed by the
    properties of the ingestion pipeline ([handleFile], [prepareObject],
    [centerObject]) and of the orbit/gizmo interaction in [Scene]. *)

From Stdlib Require Import Bool List Ascii String ZArith QArith Lia.
Import ListNotations.
Open Scope string_scope.

(* ================================================================== *)
(** ** JavaScript string primitives used by the format dispatcher *)
(* ================================================================== *)

Module JS.

(** [s.split(sep)] for a one-character separator: the segments between
    the separators, never an empty array ([""] splits to [[""]]). *)
Fixpoint split (sep : ascii) (s : string) : list string :=
  match s with
  | EmptyString => [EmptyString]
  | String c rest =>
      if Ascii.eqb c sep then EmptyString :: split sep rest
      else match split sep rest with
           | [] => [String c EmptyString]
           | seg :: segs => String c seg :: segs
           end
  end.

(** [arr.pop()]: the last element, [undefined] on an empty array. *)
Fixpoint pop (l : list string) : option string :=
  match l with
  | [] => None
  | [x] => Some x
  | _ :: tl => pop tl
  end.

Definition isUpper (c : ascii) : bool :=
  ((65 <=? nat_of_ascii c) && (nat_of_ascii c <=? 90))%nat.

Definition lowerChar (c : ascii) : ascii :=
  if isUpper c then ascii_of_nat (nat_of_ascii c + 32) else c.

(** [s.toLowerCase()] for names written in ASCII: [A-Z] go to [a-z], every
    other code is kept.  [String.prototype.toLowerCase] also maps the cased
    characters outside ASCII, some by context (a final sigma); this
    definition does not follow it there, so what is proved of the extension
    of a name with such characters is proved of this function only. *)
Fixpoint toLowerCase (s : string) : string :=
  match s with
  | EmptyString => EmptyString
  | String c rest => String (lowerChar c) (toLowerCase rest)
  end.

(** [arr.includes(x)] on an array of strings. *)
Definition includes (l : list string) (x : string) : bool :=
  existsb (String.eqb x) l.

(** Truthiness of a [string | undefined] value: [undefined] and [""] are
    falsy. *)
Definition truthy (v : option string) : bool :=
  match v with
  | None => false
  | Some EmptyString => false
  | Some _ => true
  end.

(** Whether the string contains the character ([s.includes(c)]); used to
    state the properties of [split]. *)
Fixpoint contains (c : ascii) (s : string) : bool :=
  match s with
  | EmptyString => false
  | String d rest => Ascii.eqb d c || contains c rest
  end.

End JS.

(* ================================================================== *)
(** ** Format dispatcher (the head of [handleFile]) *)
(* ================================================================== *)

Definition SUPPORTED_EXTENSIONS : list string := ["obj"; "stl"].

Definition dot : ascii := "."%char.

(** [file.name.split(".").pop()?.toLowerCase()] *)
Definition extensionOf (name : string) : option string :=
  option_map JS.toLowerCase (JS.pop (JS.split dot name)).

(** The guard [!extension || !SUPPORTED_EXTENSIONS.includes(extension)]. *)
Definition unsupported (extension : option string) : bool :=
  negb (JS.truthy extension)
  || match extension with
     | Some e => negb (JS.includes SUPPORTED_EXTENSIONS e)
     | None => true
     end.

Definition msgUnsupported : string := "Unsupported file type. Use .obj or .stl.".
Definition msgFailed : string :=
  "Failed to load model. Check the console for details.".
Definition msgLoading (name : string) : string := "Loading " ++ name ++ "...".
Definition msgLoaded (name : string) : string := "Loaded " ++ name.
Definition msgPrompt : string := "Drop an OBJ or STL here, or use the picker.".

(* ================================================================== *)
(** ** The three.js collaborators used by the normalizer *)
(* ================================================================== *)

(** Coordinates are IEEE numbers in the source.  The development is
    parametric in the number type: the operations three.js applies to
    coordinates are the fields of this interface, and no property of them is
    assumed unless a theorem states it as a hypothesis. *)
Class Coord : Type := {
  num : Type;
  zero : num;
  add : num -> num -> num;
  sub : num -> num -> num;
  neg : num -> num;
  half : num -> num;          (* [multiplyScalar(0.5)] *)
  nmin : num -> num -> num;   (* [Math.min] *)
  nmax : num -> num -> num    (* [Math.max] *)
}.

Module THREE.
Section WithCoord.
Context {C : Coord}.

Record Vector3 : Type := vec3 { vx : num; vy : num; vz : num }.

Definition vzero : Vector3 := vec3 zero zero zero.
Definition vadd (a b : Vector3) : Vector3 :=
  vec3 (add (vx a) (vx b)) (add (vy a) (vy b)) (add (vz a) (vz b)).
(** [Vector3.sub]: component-wise [a - b]. *)
Definition vsub (a b : Vector3) : Vector3 :=
  vec3 (sub (vx a) (vx b)) (sub (vy a) (vy b)) (sub (vz a) (vz b)).
Definition vnegate (a : Vector3) : Vector3 :=
  vec3 (neg (vx a)) (neg (vy a)) (neg (vz a)).
Definition vhalf (a : Vector3) : Vector3 :=
  vec3 (half (vx a)) (half (vy a)) (half (vz a)).
Definition vmin (a b : Vector3) : Vector3 :=
  vec3 (nmin (vx a) (vx b)) (nmin (vy a) (vy b)) (nmin (vz a) (vz b)).
Definition vmax (a b : Vector3) : Vector3 :=
  vec3 (nmax (vx a) (vx b)) (nmax (vy a) (vy b)) (nmax (vz a) (vz b)).

(** The materials a node can carry: the standard material with the three
    parameters [prepareObject] sets, or whatever the source file named. *)
Inductive Material : Type :=
| MeshStandardMaterial (color : string) (roughness metalness : Q)
| SourceMaterial (name : string).

(** [BufferGeometry]: the vertices of its position attribute. *)
Definition BufferGeometry : Type := list Vector3.

(** The fields of a scene node the viewer reads or writes.  Nodes carry a
    position only: rotation and scale stay the identity, as in the
    hierarchies [OBJLoader] builds. *)
Record NodeData : Type := node {
  isMesh : bool;
  material : option Material;
  geometry : option BufferGeometry;
  position : Vector3
}.

(** [Object3D]: a node and its children. *)
#[warnings="-register-all"]
Inductive Object3D : Type :=
| Obj (d : NodeData) (children : list Object3D).

Definition data (o : Object3D) : NodeData :=
  match o with Obj d _ => d end.
Definition children (o : Object3D) : list Object3D :=
  match o with Obj _ cs => cs end.

Definition setMaterial (m : Material) (d : NodeData) : NodeData :=
  node (isMesh d) (Some m) (geometry d) (position d).
Definition setPosition (p : Vector3) (d : NodeData) : NodeData :=
  node (isMesh d) (material d) (geometry d) p.

(** [object.traverse(callback)]: the callback runs on the node itself and
    then on every descendant.  The callbacks of this program write fields of
    the visited node only, so they are functions on [NodeData]. *)
Fixpoint traverse (callback : NodeData -> NodeData) (o : Object3D) : Object3D :=
  match o with
  | Obj d cs => Obj (callback d) (map (traverse callback) cs)
  end.

(** The node itself followed by all its descendants, in traversal order. *)
Fixpoint nodes (o : Object3D) : list NodeData :=
  match o with
  | Obj d cs => d :: flat_map nodes cs
  end.

(** The descendants proper: every node below the root. *)
Definition descendants (o : Object3D) : list NodeData :=
  flat_map nodes (children o).

(** Induction on a hierarchy, with the hypothesis on every child. *)
Fixpoint Object3D_forall_ind (P : Object3D -> Prop)
  (H : forall d cs, Forall P cs -> P (Obj d cs)) (o : Object3D) : P o :=
  match o with
  | Obj d cs =>
      H d cs
        ((fix go (l : list Object3D) : Forall P l :=
            match l with
            | [] => Forall_nil P
            | c :: l' => Forall_cons c (Object3D_forall_ind P H c) (go l')
            end) cs)
  end.

(** [Box3]: empty (three.js keeps [min = +Infinity], [max = -Infinity]) or
    spanned by its two corners. *)
Inductive Box3 : Type :=
| EmptyBox
| Box (bmin bmax : Vector3).

Definition expandByPoint (b : Box3) (p : Vector3) : Box3 :=
  match b with
  | EmptyBox => Box p p
  | Box mn mx => Box (vmin mn p) (vmax mx p)
  end.

Definition isEmpty (b : Box3) : bool :=
  match b with EmptyBox => true | Box _ _ => false end.

(** [box.getCenter(target)]: the origin for an empty box, the midpoint of
    the corners otherwise. *)
Definition getCenter (b : Box3) : Vector3 :=
  match b with
  | EmptyBox => vzero
  | Box mn mx => vhalf (vadd mn mx)
  end.

(** [box.getSize(target)]: zero for an empty box. *)
Definition getSize (b : Box3) : Vector3 :=
  match b with
  | EmptyBox => vzero
  | Box mn mx => vsub mx mn
  end.

Definition expandByPoints (b : Box3) (ps : list Vector3) : Box3 :=
  fold_left expandByPoint ps b.

(** [box.expandByObject(object)]: every vertex of the node, moved to world
    space ([origin] is the world position of the parent), then the
    children. *)
Fixpoint expandByObject (origin : Vector3) (b : Box3) (o : Object3D) : Box3 :=
  match o with
  | Obj d cs =>
      let world := vadd origin (position d) in
      let b' :=
        match geometry d with
        | Some g => expandByPoints b (map (vadd world) g)
        | None => b
        end in
      fold_left (expandByObject world) cs b'
  end.

(** [new Box3().setFromObject(object)] on a root object (no parent). *)
Definition setFromObject (o : Object3D) : Box3 :=
  expandByObject vzero EmptyBox o.

(** [geometry.computeBoundingBox()] *)
Definition computeBoundingBox (g : BufferGeometry) : Box3 :=
  expandByPoints EmptyBox g.

(** [geometry.center()]: translate every vertex by the negated centre of
    the bounding box. *)
Definition center (g : BufferGeometry) : BufferGeometry :=
  let offset := vnegate (getCenter (computeBoundingBox g)) in
  map (fun v => vadd v offset) g.

(** Number of vertices in the whole hierarchy. *)
Fixpoint vertexCount (o : Object3D) : nat :=
  match o with
  | Obj d cs =>
      match geometry d with Some g => List.length g | None => 0 end
      + list_sum (map vertexCount cs)
  end.

End WithCoord.
End THREE.

(* ================================================================== *)
(** ** Geometry normalizer: [centerObject] and [prepareObject] *)
(* ================================================================== *)

Section Normalizer.
Context {C : Coord}.
Import THREE.

(** [function centerObject(object)] *)
Definition centerObject (object : Object3D) : Object3D :=
  let box := setFromObject object in
  let center := getCenter box in
  Obj (setPosition (vsub (position (data object)) center) (data object))
      (children object).

(** [new THREE.MeshStandardMaterial({ color: "#c6c6c6", roughness: 0.65,
    metalness: 0.1 })] *)
Definition uniformMaterial : Material :=
  MeshStandardMaterial "#c6c6c6" (65 # 100) (1 # 10).

(** The callback [prepareObject] passes to [traverse]. *)
Definition replaceMaterial (child : NodeData) : NodeData :=
  if isMesh child then setMaterial uniformMaterial child else child.

(** [function prepareObject(object)] *)
Definition prepareObject (object : Object3D) : Object3D :=
  centerObject (traverse replaceMaterial object).

End Normalizer.

(* ================================================================== *)
(** ** Model state holder: [handleFile] *)
(* ================================================================== *)

(** The collaborators [handleFile] calls inside its [try] block.  Each call
    is a computation that either returns or throws: the parsers of
    [STLLoader] and [OBJLoader], and the two normalizers, [geometry.center()]
    and [prepareObject(object)].  [handleFile] does not look inside a
    geometry or an object, so their types are left open here. *)
Class Collaborators : Type := {
  Geometry : Type;
  Object : Type;
  ArrayBuffer : Type;
  Exn : Type;
  STLLoader_parse : ArrayBuffer -> Exn + Geometry;
  OBJLoader_parse : string -> Exn + Object;
  callCenter : Geometry -> Exn + Geometry;
  callPrepareObject : Object -> Exn + Object
}.

Section Ingestion.
Context {K : Collaborators}.

(** [type ModelPayload] *)
Inductive ModelPayload : Type :=
| GeometryKind (geometry : Geometry)
| ObjectKind (object : Object).

(** A [File]: its name and what its two readers resolve to (a reader may
    reject). *)
Record File : Type := mkFile {
  file_name : string;
  file_arrayBuffer : Exn + ArrayBuffer;
  file_text : Exn + string
}.

(** What an invocation of [handleFile] calls. *)
Inductive Callee : Type :=
| FileArrayBuffer | FileText | STLParse | OBJParse | GeometryCenter
| PrepareObject.

(** What an invocation of [handleFile] does, in order. *)
Inductive Effect : Type :=
| SetStatus (s : string)
| SetModel (m : ModelPayload)
| ConsoleError (error : Exn)
| Call (c : Callee).

(** Computations of the [try] block: the effects so far and a value or the
    thrown exception. *)
Definition Try (A : Type) : Type := (list Effect * (Exn + A))%type.

Definition ret {A} (a : A) : Try A := ([], inr a).
Definition bind {A B} (m : Try A) (f : A -> Try B) : Try B :=
  match m with
  | (l, inl e) => (l, inl e)
  | (l, inr a) => let (l', r) := f a in ((l ++ l')%list, r)
  end.
Definition tell (e : Effect) : Try unit := ([e], inr tt).
Definition call {A} (c : Callee) (r : Exn + A) : Try A := ([Call c], r).

Notation "x <- m ;; k" := (bind m (fun x => k))
  (at level 61, m at next level, right associativity).
Notation "m ;;; k" := (bind m (fun _ => k))
  (at level 61, right associativity).

(** The body of [try { ... }] in [handleFile]. *)
Definition tryBlock (file : File) (extension : string) : Try unit :=
  (if String.eqb extension "stl" then
     arrayBuffer <- call FileArrayBuffer (file_arrayBuffer file) ;;
     geometry <- call STLParse (STLLoader_parse arrayBuffer) ;;
     centered <- call GeometryCenter (callCenter geometry) ;;
     tell (SetModel (GeometryKind centered))
   else
     text <- call FileText (file_text file) ;;
     object <- call OBJParse (OBJLoader_parse text) ;;
     prepared <- call PrepareObject (callPrepareObject object) ;;
     tell (SetModel (ObjectKind prepared))) ;;;
  tell (SetStatus (msgLoaded (file_name file))).

(** [try m catch (error) handler] *)
Definition tryCatch (m : Try unit) (handler : Exn -> list Effect)
  : list Effect :=
  match m with
  | (l, inr _) => l
  | (l, inl error) => (l ++ handler error)%list
  end.

(** [const handleFile = async (file: File) => ...] *)
Definition handleFile (file : File) : list Effect :=
  let extension := extensionOf (file_name file) in
  if unsupported extension then [SetStatus msgUnsupported]
  else
    match extension with
    | None => [SetStatus msgUnsupported]
    | Some extension =>
        SetStatus (msgLoading (file_name file))
        :: tryCatch (tryBlock file extension)
             (fun error => [ConsoleError error; SetStatus msgFailed])
    end.

(** The state the viewer keeps ([model], [status]), and [console]: the
    errors [handleFile] itself has passed to [console.error], in its
    [catch] clause.  What a collaborator writes to the console on its own
    (three.js reports a geometry with NaN bounds there) is not recorded. *)
Record AppState : Type := mkApp {
  model : option ModelPayload;
  status : string;
  console : list Exn
}.

Definition initialApp : AppState := mkApp None msgPrompt [].

Definition applyEffect (st : AppState) (e : Effect) : AppState :=
  match e with
  | SetStatus s => mkApp (model st) s (console st)
  | SetModel m => mkApp (Some m) (status st) (console st)
  | ConsoleError error => mkApp (model st) (status st) (console st ++ [error])%list
  | Call _ => st
  end.

(** One load, run to completion from [st]. *)
Definition load (st : AppState) (file : File) : AppState :=
  fold_left applyEffect (handleFile file) st.

Definition isSetModel (e : Effect) : bool :=
  match e with SetModel _ => true | _ => false end.
Definition isParserCall (e : Effect) : bool :=
  match e with Call STLParse | Call OBJParse => true | _ => false end.

(** The status values an invocation writes, in order. *)
Definition statusUpdates (l : list Effect) : list string :=
  flat_map (fun e => match e with SetStatus s => [s] | _ => [] end) l.

(** The ways the [try] block of a load can throw [e]: a reader rejects, the
    parser raises, or the normalizer raises. *)
Inductive Raises (file : File) (extension : string) (e : Exn) : Prop :=
| raise_arrayBuffer :
    extension = "stl" -> file_arrayBuffer file = inl e -> Raises file extension e
| raise_STLParse buf :
    extension = "stl" -> file_arrayBuffer file = inr buf ->
    STLLoader_parse buf = inl e -> Raises file extension e
| raise_center buf g :
    extension = "stl" -> file_arrayBuffer file = inr buf ->
    STLLoader_parse buf = inr g -> callCenter g = inl e ->
    Raises file extension e
| raise_text :
    extension <> "stl" -> file_text file = inl e -> Raises file extension e
| raise_OBJParse txt :
    extension <> "stl" -> file_text file = inr txt ->
    OBJLoader_parse txt = inl e -> Raises file extension e
| raise_prepareObject txt o :
    extension <> "stl" -> file_text file = inr txt ->
    OBJLoader_parse txt = inr o -> callPrepareObject o = inl e ->
    Raises file extension e.

(** Parsing and normalization both succeed and yield [m]. *)
Inductive Succeeds (file : File) (extension : string) (m : ModelPayload)
  : Prop :=
| succeed_stl buf g g' :
    extension = "stl" -> file_arrayBuffer file = inr buf ->
    STLLoader_parse buf = inr g -> callCenter g = inr g' ->
    m = GeometryKind g' -> Succeeds file extension m
| succeed_obj txt o o' :
    extension <> "stl" -> file_text file = inr txt ->
    OBJLoader_parse txt = inr o -> callPrepareObject o = inr o' ->
    m = ObjectKind o' -> Succeeds file extension m.

End Ingestion.

(** The viewer's own instance: the normalizers are the functions above
    (which return on every input), the parsers and the exception and buffer
    types are whatever the loaders provide. *)
Definition viewerCollaborators {C : Coord} (ArrayBuffer Exn : Type)
  (stl : ArrayBuffer -> Exn + THREE.BufferGeometry)
  (obj : string -> Exn + THREE.Object3D) : Collaborators :=
  {| Geometry := THREE.BufferGeometry;
     Object := THREE.Object3D;
     ArrayBuffer := ArrayBuffer;
     Exn := Exn;
     STLLoader_parse := stl;
     OBJLoader_parse := obj;
     callCenter := fun g => inr (THREE.center g);
     callPrepareObject := fun o => inr (prepareObject o) |}.

(* ================================================================== *)
(** ** Interaction mode controller: [Scene] of the dual-mode viewer *)
(* ================================================================== *)

Module DualMode.
Section WithCollaborators.
Context {K : Collaborators}.

(** The object behind [orbitRef]: the flag the viewer writes. *)
Record OrbitControls : Type := mkOrbit { enabled : bool }.

(** A mounted [<TransformControls>]: its drag flag, the [value] of its
    [dragging-changed] events. *)
Record TransformControls : Type := mkGizmo { dragging : bool }.

(** The [<group ref={modelRef}>] element. *)
Inductive Group : Type := TheGroup.

(** [Scene]: its two props, its state and its refs, and the manipulator
    element when it is rendered. *)
Record Scene : Type := mkScene {
  model : option ModelPayload;             (* prop *)
  showGizmo : bool;                        (* prop *)
  transformTarget : option Group;          (* useState *)
  orbitRef : option OrbitControls;         (* orbitRef.current *)
  gizmo : option TransformControls         (* the mounted manipulator *)
}.

(** [modelRef.current]: the group exists when a model is rendered. *)
Definition modelRef (s : Scene) : option Group :=
  match model s with Some _ => Some TheGroup | None => None end.

Definition isSome {A} (o : option A) : bool :=
  match o with Some _ => true | None => false end.

(** The JSX condition under which the manipulator is rendered:
    [model ? ... (showGizmo && transformTarget ? <TransformControls/> : null)]. *)
Definition gizmoRendered (s : Scene) : bool :=
  isSome (model s) && (showGizmo s && isSome (transformTarget s)).

(** Commit of a render: according to [gizmoRendered] the manipulator is
    kept as it is, mounted (a new manipulator is not dragging), or
    unmounted (its drag flag goes with it: no [dragging-changed] event is
    sent on unmount, which is why [effectShowGizmo] exists). *)
Definition render (s : Scene) : Scene :=
  mkScene (model s) (showGizmo s) (transformTarget s) (orbitRef s)
    (if gizmoRendered s
     then match gizmo s with
          | Some g => Some g
          | None => Some (mkGizmo false)
          end
     else None).

(** [orbitRef.current.enabled = v], guarded by [if (orbitRef.current)]. *)
Definition setOrbitEnabled (v : bool) (s : Scene) : Scene :=
  match orbitRef s with
  | Some _ =>
      mkScene (model s) (showGizmo s) (transformTarget s)
        (Some (mkOrbit v)) (gizmo s)
  | None => s
  end.

(** [useEffect(() => setTransformTarget(modelRef.current), [model])] *)
Definition effectModel (s : Scene) : Scene :=
  render (mkScene (model s) (showGizmo s) (modelRef s) (orbitRef s) (gizmo s)).

(** [useEffect(() => { if (!showGizmo && orbitRef.current)
    orbitRef.current.enabled = true }, [showGizmo])] *)
Definition effectShowGizmo (s : Scene) : Scene :=
  if negb (showGizmo s) then setOrbitEnabled true s else s.

(** [onDraggingChanged]: [orbitRef.current.enabled = !event.value]. *)
Definition onDraggingChanged (value : bool) (s : Scene) : Scene :=
  setOrbitEnabled (negb value) s.

(** What can happen to a mounted [Scene]. *)
Inductive Event : Type :=
| ModelChanged (m : ModelPayload)      (* [setModel] in [handleFile] *)
| ShowGizmoChanged (checked : bool)    (* the checkbox: [setShowGizmo] *)
| DraggingChanged (value : bool).      (* the manipulator's event *)

Definition step (s : Scene) (ev : Event) : Scene :=
  match ev with
  | ModelChanged m =>
      effectModel
        (render (mkScene (Some m) (showGizmo s) (transformTarget s)
                   (orbitRef s) (gizmo s)))
  | ShowGizmoChanged checked =>
      if Bool.eqb checked (showGizmo s) then s
      else
        effectShowGizmo
          (render (mkScene (model s) checked (transformTarget s)
                     (orbitRef s) (gizmo s)))
  | DraggingChanged value =>
      match gizmo s with
      | Some _ =>
          onDraggingChanged value
            (mkScene (model s) (showGizmo s) (transformTarget s)
               (orbitRef s) (Some (mkGizmo value)))
      | None => s
      end
  end.

(** The scene once mounted under [App]'s initial state ([model = null],
    [showGizmo = true]); a new [OrbitControls] is enabled. *)
Definition initialScene : Scene :=
  mkScene None true None (Some (mkOrbit true)) None.

Definition run (s : Scene) (evs : list Event) : Scene :=
  fold_left step evs s.

Inductive Reachable : Scene -> Prop :=
| reach_init : Reachable initialScene
| reach_step s ev : Reachable s -> Reachable (step s ev).

(** [InteractionMode] as the checkbox shows it. *)
Inductive InteractionMode : Type := OrbitOnly | GizmoRotate.

Definition mode (s : Scene) : InteractionMode :=
  if showGizmo s then GizmoRotate else OrbitOnly.

(** [DragState]: the drag flag of the mounted manipulator; no manipulator,
    no drag. *)
Definition DragState (s : Scene) : bool :=
  match gizmo s with Some g => dragging g | None => false end.

(** [isOrbitEnabled()]: the [enabled] flag of the orbit control. *)
Definition isOrbitEnabled (s : Scene) : option bool :=
  option_map enabled (orbitRef s).

(** The [enableRotate] prop the render passes to [<OrbitControls>]. *)
Definition enableRotate (s : Scene) : bool := negb (showGizmo s).

(** The orbit control rotates the camera when it is enabled and its rotate
    capability is on. *)
Definition orbitRotates (s : Scene) : bool :=
  match isOrbitEnabled s with
  | Some true => enableRotate s
  | _ => false
  end.

(** What every reachable scene satisfies: the orbit control exists and its
    flag is the negation of the drag flag, and a manipulator is mounted
    only where the render puts one. *)
Definition SceneInv (s : Scene) : Prop :=
  orbitRef s = Some (mkOrbit (negb (DragState s))) /\
  (isSome (gizmo s) = true -> gizmoRendered s = true).

End WithCollaborators.
End DualMode.

(* ================================================================== *)
(** ** Fixtures: concrete collaborators for the examples *)
(* ================================================================== *)

Module Fixture.
Import THREE.

(** Integer coordinates. *)
Definition zCoord : Coord :=
  {| num := Z; zero := 0%Z; add := Z.add; sub := Z.sub; neg := Z.opp;
     half := fun n => (n / 2)%Z; nmin := Z.min; nmax := Z.max |}.
#[local] Existing Instance zCoord.

(** A parser that rejects the zero-byte buffer and reads anything else as
    one triangle away from the origin. *)
Definition stl (buf : list Z) : string + BufferGeometry :=
  match buf with
  | [] => inl "STL: unexpected end of file"
  | _ => inr [vec3 4 4 4; vec3 6 4 4; vec3 4 6 6]%Z
  end.

Definition redMesh : Object3D :=
  Obj (node true (Some (SourceMaterial "red"))
         (Some [vec3 0 0 0; vec3 2 0 0; vec3 0 2 4]%Z) (vec3 1 1 1)%Z) [].
Definition wireframe : Object3D :=
  Obj (node false (Some (SourceMaterial "lines"))
         (Some [vec3 0 0 0; vec3 2 2 2]%Z) (vec3 0 0 0)%Z) [].
Definition sceneObj : Object3D :=
  Obj (node false None None (vec3 0 0 0)%Z) [redMesh; wireframe].
Definition emptyGroup : Object3D :=
  Obj (node false None None (vec3 3 0 0)%Z)
      [Obj (node true (Some (SourceMaterial "red")) (Some []) (vec3 1 2 3)%Z) []].

(** A parser that rejects the empty text and reads anything else as
    [sceneObj]. *)
Definition obj (txt : string) : string + Object3D :=
  match txt with
  | EmptyString => inl "OBJ: empty file"
  | _ => inr sceneObj
  end.

Definition viewer : Collaborators :=
  viewerCollaborators (list Z) string stl obj.

Definition notes_txt : File (K := viewer) :=
  mkFile (K := viewer) "notes.txt" (inr [110; 111]%Z) (inr "notes").
Definition zero_byte_stl : File (K := viewer) :=
  mkFile (K := viewer) "cube.stl" (inr []) (inr "").
Definition cube_STL : File (K := viewer) :=
  mkFile (K := viewer) "cube.STL" (inr [80]%Z) (inr "P").
Definition scene_obj : File (K := viewer) :=
  mkFile (K := viewer) "scene.obj" (inr [118]%Z) (inr "v 0 0 0").
Definition dotless_stl : File (K := viewer) :=
  mkFile (K := viewer) "stl" (inr [80]%Z) (inr "P").

(** A viewer that already shows a model. *)
Definition showingModel : AppState (K := viewer) :=
  mkApp (K := viewer) (Some (GeometryKind (K := viewer) [vec3 1 1 1]%Z))
    (msgLoaded "old.stl") [].

(** The dual-mode scene with a model loaded, and in the middle of a drag. *)
Definition loadedScene : DualMode.Scene (K := viewer) :=
  DualMode.run DualMode.initialScene
    [DualMode.ModelChanged (GeometryKind (K := viewer) [])].
Definition draggingScene : DualMode.Scene (K := viewer) :=
  DualMode.run loadedScene [DualMode.DraggingChanged true].

End Fixture.

(* ================================================================== *)
(** ** Properties of the format dispatcher *)
(* ================================================================== *)

Section DispatcherFacts.

Lemma split_not_nil (sep : ascii) (s : string) : JS.split sep s <> [].
Proof.
  destruct s as [|c rest]; simpl; [discriminate|].
  destruct (Ascii.eqb c sep); [discriminate|].
  destruct (JS.split sep rest); discriminate.
Qed.

Lemma pop_app (l l' : list string) :
  l' <> [] -> JS.pop (l ++ l')%list = JS.pop l'.
Proof.
  intros Hl'. induction l as [|a l IH]; simpl; [reflexivity|].
  rewrite IH. destruct (l ++ l')%list eqn:E; [|reflexivity].
  apply app_eq_nil in E. destruct E; contradiction.
Qed.

(** Without a separator the string is its only segment. *)
Lemma split_no_sep (sep : ascii) (s : string) :
  JS.contains sep s = false -> JS.split sep s = [s].
Proof.
  induction s as [|c rest IH]; simpl; [reflexivity|].
  intros H. apply orb_false_iff in H. destruct H as [Hc Hrest].
  rewrite Hc, (IH Hrest). reflexivity.
Qed.

(** Splitting at a separator: the segments of the suffix are the last
    segments of the whole. *)
Lemma split_app_sep (sep : ascii) (pre suf : string) :
  exists l, l <> [] /\
    JS.split sep (pre ++ String sep suf) = (l ++ JS.split sep suf)%list.
Proof.
  induction pre as [|c pre IH]; simpl.
  - exists [EmptyString]. rewrite Ascii.eqb_refl. split; [discriminate|reflexivity].
  - destruct IH as (l & Hl & E). rewrite E.
    destruct (Ascii.eqb c sep).
    + exists (EmptyString :: l). split; [discriminate|reflexivity].
    + destruct l as [|a l0]; [contradiction|]. simpl.
      exists (String c a :: l0). split; [discriminate|reflexivity].
Qed.

Lemma pop_split_last (sep : ascii) (pre suf : string) :
  JS.contains sep suf = false ->
  JS.pop (JS.split sep (pre ++ String sep suf)) = Some suf.
Proof.
  intros H. destruct (split_app_sep sep pre suf) as (l & _ & E).
  rewrite E, pop_app by apply split_not_nil.
  rewrite (split_no_sep _ _ H). reflexivity.
Qed.

Lemma includes_In (l : list string) (x : string) :
  JS.includes l x = true <-> In x l.
Proof.
  unfold JS.includes. rewrite existsb_exists. split.
  - intros (y & Hy & E). apply String.eqb_eq in E. subst. exact Hy.
  - intros H. exists x. split; [exact H|apply String.eqb_refl].
Qed.

(** The guard of [handleFile] lets a file through exactly when its
    extension is one of the supported ones. *)
Lemma supported_iff (e : string) :
  unsupported (Some e) = false <-> In e SUPPORTED_EXTENSIONS.
Proof.
  unfold unsupported. rewrite orb_false_iff, !negb_false_iff.
  rewrite includes_In. split; [tauto|].
  intros H. split; [|exact H].
  destruct e; [|reflexivity].
  simpl in H. destruct H as [H|[H|[]]]; discriminate.
Qed.

Lemma unsupported_None : unsupported None = true.
Proof. reflexivity. Qed.

Lemma extensionOf_some (name : string) : exists e, extensionOf name = Some e.
Proof.
  unfold extensionOf.
  destruct (JS.pop (JS.split dot name)) eqn:E; [eexists; reflexivity|].
  exfalso. pose proof (split_not_nil dot name) as Hn.
  revert E Hn. generalize (JS.split dot name) as l.
  induction l as [|a l IH]; [congruence|].
  simpl. destruct l; [discriminate|]. intros E _. apply IH; [exact E|discriminate].
Qed.

End DispatcherFacts.

(* ================================================================== *)
(** ** Properties of [handleFile] *)
(* ================================================================== *)

Section IngestionFacts.
Context {K : Collaborators}.

Lemma handleFile_unsupported (file : File) :
  unsupported (extensionOf (file_name file)) = true ->
  handleFile file = [SetStatus msgUnsupported].
Proof. intros H. unfold handleFile. rewrite H. reflexivity. Qed.

Lemma handleFile_supported (file : File) (ext : string) :
  extensionOf (file_name file) = Some ext ->
  unsupported (Some ext) = false ->
  handleFile file =
    SetStatus (msgLoading (file_name file))
    :: tryCatch (tryBlock file ext)
         (fun error => [ConsoleError error; SetStatus msgFailed]).
Proof. intros E H. unfold handleFile. rewrite E, H. reflexivity. Qed.

Lemma model_fold_no_setModel (l : list Effect) (st : AppState) :
  existsb isSetModel l = false ->
  model (fold_left applyEffect l st) = model st.
Proof.
  revert st. induction l as [|e l IH]; intros st H; simpl in *; [reflexivity|].
  apply orb_false_iff in H. destruct H as [He Hl].
  rewrite (IH _ Hl). destruct e; simpl in *; try reflexivity; discriminate.
Qed.

Ltac run_try :=
  unfold tryBlock, bind, call, tell; simpl;
  repeat match goal with
         | H : ?x = _ |- context [?x] => rewrite H; simpl
         end.

(** A load that throws: the effects before the throw write nothing. *)
Lemma tryBlock_raises (file : File) (ext : string) (e : Exn) :
  Raises file ext e ->
  exists l, tryBlock file ext = (l, inl e) /\
            existsb isSetModel l = false /\ statusUpdates l = [] /\
            fold_left applyEffect l = fun st => st.
Proof.
  intros [H1 H2|buf H1 H2 H3|buf g H1 H2 H3 H4
         |H1 H2|txt H1 H2 H3|txt o H1 H2 H3 H4];
    try (subst ext); try (apply String.eqb_neq in H1);
    run_try; eexists; (split; [reflexivity|]); repeat split; reflexivity.
Qed.

(** The [try] block writes the model only after the reader, the parser and
    the normalizer have all returned. *)
Lemma tryBlock_setModel (file : File) (ext : string) (m : ModelPayload) :
  In (SetModel m) (fst (tryBlock file ext)) -> Succeeds file ext m.
Proof.
  unfold tryBlock, bind, call, tell.
  destruct (String.eqb ext "stl") eqn:Eext.
  - apply String.eqb_eq in Eext.
    destruct (file_arrayBuffer file) as [e|buf] eqn:E1; simpl;
      [intros [H|[]]; discriminate|].
    destruct (STLLoader_parse buf) as [e|g] eqn:E2; simpl;
      [intros [H|[H|[]]]; discriminate|].
    destruct (callCenter g) as [e|g'] eqn:E3; simpl;
      [intros [H|[H|[H|[]]]]; discriminate|].
    intros [H|[H|[H|[H|[H|[]]]]]]; try discriminate.
    injection H as <-. eapply succeed_stl; eauto.
  - apply String.eqb_neq in Eext.
    destruct (file_text file) as [e|txt] eqn:E1; simpl;
      [intros [H|[]]; discriminate|].
    destruct (OBJLoader_parse txt) as [e|o] eqn:E2; simpl;
      [intros [H|[H|[]]]; discriminate|].
    destruct (callPrepareObject o) as [e|o'] eqn:E3; simpl;
      [intros [H|[H|[H|[]]]]; discriminate|].
    intros [H|[H|[H|[H|[H|[]]]]]]; try discriminate.
    injection H as <-. eapply succeed_obj; eauto.
Qed.

(** C2. A file whose lower-cased extension is not one of the supported
    ones: the only effect of the load is the unsupported status; no reader
    and no parser is called, and the model is the one held before. *)
Theorem unsupported_load_keeps_model (file : File) (st : AppState) :
  (forall e, extensionOf (file_name file) = Some e ->
             ~ In e SUPPORTED_EXTENSIONS) ->
  handleFile file = [SetStatus msgUnsupported] /\
  status (load st file) = msgUnsupported /\
  existsb isParserCall (handleFile file) = false /\
  model (load st file) = model st.
Proof.
  intros H.
  assert (U : unsupported (extensionOf (file_name file)) = true).
  { destruct (extensionOf (file_name file)) as [e|] eqn:E; [|reflexivity].
    destruct (unsupported (Some e)) eqn:Eu; [reflexivity|].
    apply supported_iff in Eu. exfalso. exact (H e eq_refl Eu). }
  unfold load. rewrite (handleFile_unsupported file U).
  repeat split; reflexivity.
Qed.

(** C3. A supported load whose reader, parser or normalizer throws [e]:
    the throw is caught, the status ends as the fixed failure message, [e]
    goes to the console and nowhere else, and the model is the one held
    before.  And whenever a load writes the model at all, reading, parsing
    and normalizing have all returned, and the model written is the
    normalized one. *)
Theorem failed_load_keeps_model :
  (forall (file : File) (ext : string) (e : Exn) (st : AppState),
      extensionOf (file_name file) = Some ext ->
      unsupported (Some ext) = false ->
      Raises file ext e ->
      statusUpdates (handleFile file)
        = [msgLoading (file_name file); msgFailed] /\
      status (load st file) = msgFailed /\
      console (load st file) = (console st ++ [e])%list /\
      existsb isSetModel (handleFile file) = false /\
      model (load st file) = model st) /\
  (forall (file : File) (m : ModelPayload),
      In (SetModel m) (handleFile file) ->
      exists ext, extensionOf (file_name file) = Some ext /\
                  unsupported (Some ext) = false /\
                  Succeeds file ext m).
Proof.
  split.
  - intros file ext e st E U R.
    destruct (tryBlock_raises file ext e R) as (l & Hl & Hm & Hs & Hf).
    unfold load. rewrite (handleFile_supported file ext E U), Hl.
    unfold tryCatch. simpl.
    rewrite !fold_left_app, Hf. simpl.
    unfold statusUpdates in *. rewrite flat_map_app, Hs. simpl.
    rewrite existsb_app, Hm. repeat split; reflexivity.
  - intros file m Hin.
    destruct (extensionOf (file_name file)) as [ext|] eqn:E.
    + destruct (unsupported (Some ext)) eqn:U.
      * unfold handleFile in Hin. rewrite E, U in Hin.
        destruct Hin as [Hin|[]]; discriminate.
      * exists ext. split; [reflexivity|]. split; [exact U|].
        rewrite (handleFile_supported file ext E U) in Hin.
        destruct Hin as [Hin|Hin]; [discriminate|].
        apply tryBlock_setModel.
        unfold tryCatch in Hin.
        destruct (tryBlock file ext) as [l [e|[]]]; simpl; [|exact Hin].
        apply in_app_or in Hin. destruct Hin as [Hin|[Hin|[Hin|[]]]];
          [exact Hin|discriminate|discriminate].
    + unfold handleFile in Hin. rewrite E in Hin. simpl in Hin.
      destruct Hin as [Hin|[]]; discriminate.
Qed.

(** C8, as amended.  A load with a supported extension first sets the
    status to "Loading <name>..."; a load with an unsupported extension
    never does: its only status update is the unsupported message. *)
Theorem loading_status_only_when_supported (file : File) :
  (unsupported (extensionOf (file_name file)) = false ->
   exists rest,
     handleFile file = SetStatus (msgLoading (file_name file)) :: rest) /\
  (unsupported (extensionOf (file_name file)) = true ->
   statusUpdates (handleFile file) = [msgUnsupported] /\
   ~ In (msgLoading (file_name file)) (statusUpdates (handleFile file))).
Proof.
  split; intros U.
  - destruct (extensionOf (file_name file)) as [ext|] eqn:E; [|discriminate].
    rewrite (handleFile_supported file ext E U). eexists; reflexivity.
  - unfold handleFile. rewrite U. simpl. split; [reflexivity|].
    intros [H|[]]. discriminate.
Qed.

End IngestionFacts.

(** C7, as amended.  The extension compared against the supported list is
    the lower-cased suffix after the last dot when the name has a dot, and
    the whole lower-cased name when it has none; the file is let through
    exactly when that string is "obj" or "stl". *)
Theorem extension_is_last_segment :
  (forall pre suf : string,
      JS.contains dot suf = false ->
      extensionOf (pre ++ String dot suf) = Some (JS.toLowerCase suf) /\
      (unsupported (extensionOf (pre ++ String dot suf)) = false <->
       In (JS.toLowerCase suf) SUPPORTED_EXTENSIONS)) /\
  (forall name : string,
      JS.contains dot name = false ->
      extensionOf name = Some (JS.toLowerCase name) /\
      (unsupported (extensionOf name) = false <->
       In (JS.toLowerCase name) SUPPORTED_EXTENSIONS)).
Proof.
  split.
  - intros pre suf H. unfold extensionOf.
    rewrite (pop_split_last dot pre suf H). simpl. split; [reflexivity|].
    apply supported_iff.
  - intros name H. unfold extensionOf.
    rewrite (split_no_sep _ _ H). simpl. split; [reflexivity|].
    apply supported_iff.
Qed.

(* ================================================================== *)
(** ** Properties of the normalizer *)
(* ================================================================== *)

Section NormalizerFacts.
Context {C : Coord}.
Import THREE.

(** Induction on the hierarchy [o], naming the node, its children and the
    hypothesis on the children. *)
Ltac hierarchy_induction o d cs IH :=
  pattern o; revert o; apply Object3D_forall_ind; intros d cs IH.

Lemma nodes_traverse (f : NodeData -> NodeData) (o : Object3D) :
  nodes (traverse f o) = map f (nodes o).
Proof.
  hierarchy_induction o d cs IH. simpl. f_equal.
  induction IH as [|c cs Hc _ IHcs]; simpl; [reflexivity|].
  rewrite map_app, Hc, IHcs. reflexivity.
Qed.

Lemma descendants_traverse (f : NodeData -> NodeData) (o : Object3D) :
  descendants (traverse f o) = map f (descendants o).
Proof.
  pose proof (nodes_traverse f o) as H. destruct o as [d cs].
  simpl in H. injection H as H. exact H.
Qed.

(** Centering rewrites the position of the root and nothing else. *)
Lemma centerObject_shape (o : Object3D) :
  exists p, data (centerObject o) = setPosition p (data o) /\
            children (centerObject o) = children o.
Proof. eexists. split; reflexivity. Qed.

Lemma replaceMaterial_mesh (d : NodeData) :
  isMesh d = true -> replaceMaterial d = setMaterial uniformMaterial d.
Proof. intros H. unfold replaceMaterial. rewrite H. reflexivity. Qed.

Lemma replaceMaterial_other (d : NodeData) :
  isMesh d = false -> replaceMaterial d = d.
Proof. intros H. unfold replaceMaterial. rewrite H. reflexivity. Qed.

Lemma replaceMaterial_uniform (d : NodeData) :
  isMesh (replaceMaterial d) = true ->
  material (replaceMaterial d) = Some uniformMaterial.
Proof. unfold replaceMaterial. destruct (isMesh d) eqn:E; simpl; congruence. Qed.

(** C5. After [prepareObject], every mesh node of the hierarchy (the root
    included) carries the uniform material, whatever it carried before.
    Every descendant is the node it was, with the uniform material if it is
    a mesh and unchanged if it is not; the root changes in the same way,
    and in its position, which centering moves. *)
Theorem prepareObject_uniform_material (o : Object3D) :
  Forall (fun d => isMesh d = true -> material d = Some uniformMaterial)
         (nodes (prepareObject o)) /\
  Forall2 (fun d d' => if isMesh d then d' = setMaterial uniformMaterial d
                       else d' = d)
          (descendants o) (descendants (prepareObject o)) /\
  exists p,
    data (prepareObject o) =
      setPosition p (if isMesh (data o)
                     then setMaterial uniformMaterial (data o)
                     else data o).
Proof.
  unfold prepareObject.
  assert (Hd : descendants (centerObject (traverse replaceMaterial o))
               = map replaceMaterial (descendants o)).
  { rewrite <- descendants_traverse. reflexivity. }
  split; [|split].
  - destruct o as [d cs].
    change (nodes (centerObject (traverse replaceMaterial (Obj d cs))))
      with (data (centerObject (traverse replaceMaterial (Obj d cs)))
            :: descendants (centerObject (traverse replaceMaterial (Obj d cs)))).
    rewrite Hd. constructor.
    + simpl. apply replaceMaterial_uniform.
    + apply Forall_map. apply Forall_forall. intros x _.
      apply replaceMaterial_uniform.
  - rewrite Hd. generalize (descendants o) as l.
    induction l as [|d l IH]; simpl; constructor; [|exact IH].
    destruct (isMesh d) eqn:E;
      [apply replaceMaterial_mesh|apply replaceMaterial_other]; exact E.
  - destruct o as [d cs]. eexists. simpl.
    unfold replaceMaterial. destruct (isMesh d); reflexivity.
Qed.

Lemma list_sum_zero (l : list nat) : list_sum l = 0%nat -> Forall (eq 0%nat) l.
Proof.
  induction l as [|n l IH]; simpl; intros H; constructor.
  - lia.
  - apply IH. lia.
Qed.

(** A hierarchy without vertices adds nothing to a box. *)
Lemma expandByObject_no_vertex (o : Object3D) :
  vertexCount o = 0%nat ->
  forall origin b, expandByObject origin b o = b.
Proof.
  hierarchy_induction o d cs IH. simpl. intros H origin b.
  assert (Hg : match geometry d with
               | Some g => List.length g | None => 0%nat end = 0%nat) by lia.
  assert (Hcs : list_sum (map vertexCount cs) = 0%nat) by lia.
  clear H.
  replace (match geometry d with
           | Some g => expandByPoints b (map (vadd (vadd origin (position d))) g)
           | None => b
           end) with b.
  2:{ destruct (geometry d) as [g|]; [|reflexivity].
      apply length_zero_iff_nil in Hg. subst g. reflexivity. }
  apply list_sum_zero in Hcs. apply Forall_map in Hcs.
  generalize (vadd origin (position d)) as world. intros world.
  induction IH as [|c cs Hc _ IHcs]; simpl; [reflexivity|].
  inversion Hcs as [|? ? Hc0 Hcs0]; subst.
  rewrite (Hc (eq_sym Hc0)). apply IHcs. exact Hcs0.
Qed.

Lemma traverse_vertexCount (f : NodeData -> NodeData) (o : Object3D) :
  (forall d, geometry (f d) = geometry d) ->
  vertexCount (traverse f o) = vertexCount o.
Proof.
  intros Hf. hierarchy_induction o d cs IH. simpl.
  rewrite Hf. f_equal. rewrite map_map. f_equal.
  apply map_ext_Forall. exact IH.
Qed.

Lemma replaceMaterial_geometry (d : NodeData) :
  geometry (replaceMaterial d) = geometry d.
Proof. unfold replaceMaterial. destruct (isMesh d); reflexivity. Qed.

Lemma replaceMaterial_position (d : NodeData) :
  position (replaceMaterial d) = position d.
Proof. unfold replaceMaterial. destruct (isMesh d); reflexivity. Qed.

(** C9, as amended.  A model without vertices, in a number system where
    [x - 0 = x]: the bounding box is empty, of size zero, and its centre is
    the origin, wherever the model itself is; the normalizers return the
    model where it was: [geometry.center()] returns the geometry,
    [centerObject] the object, and [prepareObject] the object with its
    materials replaced and its position kept. *)
Theorem empty_model_normalizes_in_place :
  (forall n : num, sub n zero = n) ->
  (forall g : BufferGeometry,
      List.length g = 0%nat ->
      computeBoundingBox g = EmptyBox /\ center g = g) /\
  (forall o : Object3D,
      vertexCount o = 0%nat ->
      setFromObject o = EmptyBox /\
      getSize (setFromObject o) = vzero /\
      getCenter (setFromObject o) = vzero /\
      centerObject o = o /\
      prepareObject o = traverse replaceMaterial o /\
      position (data (prepareObject o)) = position (data o)).
Proof.
  intros sub_zero.
  assert (vsub_zero : forall p, vsub p vzero = p).
  { intros [a b c]. unfold vsub, vzero. simpl. rewrite !sub_zero. reflexivity. }
  assert (centerObject_id : forall o, vertexCount o = 0%nat -> centerObject o = o).
  { intros o H. unfold centerObject, setFromObject.
    rewrite (expandByObject_no_vertex o H). simpl. rewrite vsub_zero.
    destruct o as [[m mat g p] cs]. reflexivity. }
  split.
  - intros g H. apply length_zero_iff_nil in H. subst g. split; reflexivity.
  - intros o H.
    assert (H' : vertexCount (traverse replaceMaterial o) = 0%nat)
      by (rewrite traverse_vertexCount by apply replaceMaterial_geometry;
          exact H).
    assert (E : setFromObject o = EmptyBox)
      by (apply (expandByObject_no_vertex o H)).
    assert (P : prepareObject o = traverse replaceMaterial o)
      by (unfold prepareObject; apply centerObject_id; exact H').
    rewrite P, E, (centerObject_id o H).
    split; [reflexivity|]. split; [reflexivity|]. split; [reflexivity|].
    split; [reflexivity|]. split; [reflexivity|].
    destruct o as [d cs]. simpl. apply replaceMaterial_position.
Qed.

End NormalizerFacts.

(* ================================================================== *)
(** ** Properties of the interaction mode controller *)
(* ================================================================== *)

Section DualModeFacts.
Context {K : Collaborators}.
Import DualMode.

Lemma SceneInv_initial : SceneInv initialScene.
Proof. split; [reflexivity|discriminate]. Qed.

Ltac scene_cases s :=
  destruct s as [[m|] [|] [t|] [[[|]]|] [[[|]]|]];
  unfold SceneInv, DragState, gizmoRendered in *; simpl in *.

Lemma SceneInv_step (s : Scene) (ev : Event) :
  SceneInv s -> SceneInv (step s ev).
Proof.
  intros [Ho Hg]. destruct ev as [m'|[|]|[|]];
    scene_cases s;
    try discriminate; try (specialize (Hg eq_refl); discriminate);
    split; (reflexivity || discriminate || (intros _; reflexivity) || idtac).
Qed.

Lemma Reachable_inv (s : Scene) : Reachable s -> SceneInv s.
Proof.
  induction 1 as [|s ev _ IH]; [apply SceneInv_initial|].
  apply SceneInv_step. exact IH.
Qed.

Lemma Reachable_run (evs : list Event) (s : Scene) :
  Reachable s -> Reachable (run s evs).
Proof.
  revert s. induction evs as [|ev evs IH]; intros s H; simpl; [exact H|].
  apply IH. constructor. exact H.
Qed.

(** The rule of the controller, in every reachable scene: the orbit control
    is enabled in the orbit-only mode, and in the gizmo mode when no drag is
    in progress. *)
Lemma isOrbitEnabled_rule (s : Scene) :
  Reachable s ->
  isOrbitEnabled s = Some (negb (showGizmo s) || negb (DragState s)).
Proof.
  intros R. destruct (Reachable_inv s R) as [Ho Hg].
  unfold isOrbitEnabled. rewrite Ho. simpl. f_equal.
  destruct (showGizmo s) eqn:Es; [reflexivity|]. simpl.
  unfold DragState. destruct (gizmo s) as [g|]; [|reflexivity].
  specialize (Hg eq_refl). unfold gizmoRendered in Hg. rewrite Es in Hg.
  rewrite andb_false_r in Hg. discriminate.
Qed.

(** C1. In every reachable scene of the dual-mode viewer: while the
    manipulator is being dragged the orbit control is disabled, and when it
    is not and the mode is the gizmo mode the orbit control is enabled.
    The drag event itself does it: after [dragging-changed] with [value]
    on a mounted manipulator, the drag state is [value] and the orbit flag
    is its negation. *)
Theorem orbit_suspended_while_dragging (s : Scene) :
  Reachable s ->
  (DragState s = true -> isOrbitEnabled s = Some false) /\
  (DragState s = false -> mode s = GizmoRotate ->
   isOrbitEnabled s = Some true) /\
  (forall value, isSome (gizmo s) = true ->
     DragState (step s (DraggingChanged value)) = value /\
     isOrbitEnabled (step s (DraggingChanged value)) = Some (negb value)).
Proof.
  intros R. destruct (Reachable_inv s R) as [Ho Hg].
  unfold isOrbitEnabled. rewrite Ho. simpl.
  split; [|split].
  - intros ->. reflexivity.
  - intros -> _. reflexivity.
  - intros value Hm. destruct (gizmo s) as [g|] eqn:Eg; [|discriminate].
    unfold step, onDraggingChanged, setOrbitEnabled, DragState.
    simpl. rewrite Ho. simpl. split; reflexivity.
Qed.

(** C6. Leaving the gizmo mode for the orbit-only mode enables the orbit
    control, whatever the drag flag and the orbit flag were before: in any
    scene whose orbit control exists, and so in every reachable scene. *)
Theorem switch_to_orbit_only_enables_orbit :
  (forall (s : Scene) (o : OrbitControls),
      orbitRef s = Some o -> mode s = GizmoRotate ->
      mode (step s (ShowGizmoChanged false)) = OrbitOnly /\
      isOrbitEnabled (step s (ShowGizmoChanged false)) = Some true) /\
  (forall s : Scene,
      Reachable s -> mode s = GizmoRotate ->
      mode (step s (ShowGizmoChanged false)) = OrbitOnly /\
      isOrbitEnabled (step s (ShowGizmoChanged false)) = Some true).
Proof.
  assert (A : forall (s : Scene) (o : OrbitControls),
             orbitRef s = Some o -> mode s = GizmoRotate ->
             mode (step s (ShowGizmoChanged false)) = OrbitOnly /\
             isOrbitEnabled (step s (ShowGizmoChanged false)) = Some true).
  { intros s o Ho Hm. unfold mode in Hm.
    destruct (showGizmo s) eqn:Es; [|discriminate].
    unfold step. rewrite Es. simpl.
    unfold effectShowGizmo, render, setOrbitEnabled, isOrbitEnabled, mode.
    simpl. rewrite Ho. simpl. split; reflexivity. }
  split; [exact A|].
  intros s R Hm. destruct (Reachable_inv s R) as [Ho _].
  exact (A s _ Ho Hm).
Qed.

(** C10. The render passes [enableRotate = !showGizmo]: in the gizmo mode
    the orbit control cannot rotate the camera, whether or not a drag is in
    progress; it rotates the camera only in the orbit-only mode, and there
    it does in every reachable scene.  A reachable scene in the gizmo mode
    with no drag in progress and the orbit control enabled still has the
    rotation off. *)
Theorem gizmo_mode_disables_orbit_rotation :
  (forall s : Scene,
      mode s = GizmoRotate ->
      enableRotate s = false /\ orbitRotates s = false) /\
  (forall s : Scene, orbitRotates s = true -> mode s = OrbitOnly) /\
  (forall s : Scene,
      Reachable s -> mode s = OrbitOnly -> orbitRotates s = true) /\
  (Reachable initialScene /\ mode initialScene = GizmoRotate /\
   DragState initialScene = false /\
   isOrbitEnabled initialScene = Some true /\
   enableRotate initialScene = false).
Proof.
  assert (A : forall s : Scene,
             mode s = GizmoRotate ->
             enableRotate s = false /\ orbitRotates s = false).
  { intros s Hm. unfold mode in Hm. unfold orbitRotates, enableRotate.
    destruct (showGizmo s); [|discriminate]. simpl.
    split; [reflexivity|]. destruct (isOrbitEnabled s) as [[|]|]; reflexivity. }
  split; [exact A|]. split; [|split].
  - intros s Hr. unfold mode. destruct (showGizmo s) eqn:Es; [|reflexivity].
    destruct (A s) as [_ H]; [unfold mode; rewrite Es; reflexivity|].
    congruence.
  - intros s R Hm. destruct (Reachable_inv s R) as [Ho Hg].
    unfold mode in Hm. unfold orbitRotates, enableRotate, isOrbitEnabled.
    destruct (showGizmo s) eqn:Es; [discriminate|].
    rewrite Ho. simpl. unfold DragState.
    destruct (gizmo s) as [g|]; [|reflexivity].
    specialize (Hg eq_refl). unfold gizmoRendered in Hg. rewrite Es in Hg.
    rewrite andb_false_r in Hg. discriminate.
  - repeat split; constructor.
Qed.

End DualModeFacts.

(* ================================================================== *)
(** ** The properties at concrete inputs *)
(* ================================================================== *)

Section Examples.
Import THREE Fixture.
#[local] Existing Instance zCoord.
#[local] Existing Instance viewer.

(** Scenario: [cube.STL] loads, and the geometry is centred. *)
Example load_cube_STL :
  load showingModel cube_STL
  = mkApp (Some (GeometryKind [vec3 (-1) (-1) (-1); vec3 1 (-1) (-1);
                               vec3 (-1) 1 1]%Z))
          "Loaded cube.STL" [].
Proof. reflexivity. Qed.

(** Scenario: the red mesh of [scene.obj] comes out with the uniform
    material, the line object keeps its own. *)
Example load_scene_obj_materials :
  match model (load initialApp scene_obj) with
  | Some (ObjectKind o) =>
      map material (nodes o)
      = [None; Some uniformMaterial; Some (SourceMaterial "lines")]
  | _ => False
  end.
Proof. reflexivity. Qed.

Lemma unsupported_load_keeps_model_witness :
  status (load showingModel notes_txt) = msgUnsupported /\
  model (load showingModel notes_txt) = model showingModel /\
  existsb isParserCall (handleFile notes_txt) = false.
Proof.
  destruct (unsupported_load_keeps_model notes_txt showingModel)
    as (_ & Hs & Hp & Hm).
  - intros e H. vm_compute in H. injection H as <-.
    intros [H|[H|[]]]; discriminate.
  - split; [exact Hs|]. split; [exact Hm|exact Hp].
Defined.

Lemma failed_load_keeps_model_witness :
  status (load showingModel zero_byte_stl) = msgFailed /\
  console (load showingModel zero_byte_stl) = ["STL: unexpected end of file"] /\
  model (load showingModel zero_byte_stl) = model showingModel.
Proof.
  destruct (failed_load_keeps_model (K := viewer)) as [H _].
  destruct (H zero_byte_stl "stl" "STL: unexpected end of file" showingModel)
    as (_ & Hs & Hc & _ & Hm).
  - reflexivity.
  - reflexivity.
  - apply raise_STLParse with (buf := []); reflexivity.
  - split; [exact Hs|]. split; [exact Hc|exact Hm].
Defined.

(** C8 as stated fails: the load of [notes.txt] never sets the status to
    "Loading notes.txt..."; its one status update is the unsupported
    message. *)
Lemma unsupported_load_skips_loading :
  ~ (forall file : File,
        exists rest,
          handleFile file = SetStatus (msgLoading (file_name file)) :: rest).
Proof.
  intros H. destruct (H notes_txt) as [rest E].
  rewrite handleFile_unsupported in E by reflexivity.
  injection E as E _. discriminate E.
Qed.

Lemma loading_status_only_when_supported_witness :
  (exists rest, handleFile cube_STL = SetStatus "Loading cube.STL..." :: rest) /\
  statusUpdates (handleFile notes_txt) = [msgUnsupported].
Proof.
  split.
  - apply (proj1 (loading_status_only_when_supported cube_STL)). reflexivity.
  - apply (proj2 (loading_status_only_when_supported notes_txt)). reflexivity.
Defined.

(** C7 as stated fails: the name [stl] has no dot and is not classified as
    unsupported; its load goes on to call the STL parser. *)
Lemma dotless_name_is_supported :
  ~ (forall name : string,
        JS.contains dot name = false -> unsupported (extensionOf name) = true)
  /\ existsb isParserCall (handleFile dotless_stl) = true.
Proof.
  split; [|reflexivity].
  intros H. specialize (H "stl" eq_refl). vm_compute in H. discriminate.
Qed.

Lemma extension_is_last_segment_witness :
  extensionOf "archive.tar.OBJ" = Some "obj" /\
  unsupported (extensionOf "archive.tar.OBJ") = false /\
  extensionOf "README" = Some "readme" /\
  unsupported (extensionOf "README") = true.
Proof.
  destruct extension_is_last_segment as [Hdot Hnodot].
  destruct (Hdot "archive.tar" "OBJ" eq_refl) as [E1 _].
  destruct (Hnodot "README" eq_refl) as [E2 _].
  split; [exact E1|]. split; [reflexivity|]. split; [exact E2|reflexivity].
Defined.

(** C9 as stated fails: [emptyGroup] has no vertex and sits at (3, 0, 0);
    the centre computed for it is the origin, not its own position. *)
Lemma empty_model_centre_is_not_its_position :
  vertexCount emptyGroup = 0%nat /\
  getCenter (setFromObject emptyGroup) <> position (data emptyGroup).
Proof. split; [reflexivity|]. discriminate. Qed.

Lemma empty_model_normalizes_in_place_witness :
  centerObject emptyGroup = emptyGroup /\
  position (data (prepareObject emptyGroup)) = (vec3 3 0 0)%Z /\
  center (C := zCoord) [] = [].
Proof.
  destruct (empty_model_normalizes_in_place (C := zCoord)) as [Hg Ho].
  - intros n. apply Z.sub_0_r.
  - destruct (Ho emptyGroup eq_refl) as (_ & _ & _ & Hc & _ & Hp).
    destruct (Hg [] eq_refl) as [_ Hz].
    split; [exact Hc|]. split; [exact Hp|exact Hz].
Defined.

Lemma orbit_suspended_while_dragging_witness :
  DualMode.DragState draggingScene = true /\
  DualMode.isOrbitEnabled draggingScene = Some false /\
  DualMode.isOrbitEnabled (DualMode.step draggingScene (DualMode.DraggingChanged false)) = Some true.
Proof.
  destruct (orbit_suspended_while_dragging draggingScene) as (H1 & _ & H3).
  - apply Reachable_run. apply Reachable_run. constructor.
  - split; [reflexivity|]. split; [apply H1; reflexivity|].
    apply (H3 false). reflexivity.
Defined.

Lemma switch_to_orbit_only_enables_orbit_witness :
  DualMode.DragState draggingScene = true /\
  DualMode.isOrbitEnabled draggingScene = Some false /\
  DualMode.isOrbitEnabled (DualMode.step draggingScene (DualMode.ShowGizmoChanged false)) = Some true.
Proof.
  destruct (switch_to_orbit_only_enables_orbit (K := viewer)) as [H _].
  destruct (H draggingScene (DualMode.mkOrbit false) eq_refl eq_refl) as [_ He].
  split; [reflexivity|]. split; [reflexivity|exact He].
Defined.

Lemma gizmo_mode_disables_orbit_rotation_witness :
  DualMode.isOrbitEnabled loadedScene = Some true /\
  DualMode.enableRotate loadedScene = false /\
  DualMode.orbitRotates loadedScene = false /\
  DualMode.orbitRotates (DualMode.step loadedScene (DualMode.ShowGizmoChanged false)) = true.
Proof.
  destruct (gizmo_mode_disables_orbit_rotation (K := viewer))
    as (Hg & _ & Ho & _).
  destruct (Hg loadedScene eq_refl) as [Hr Hn].
  split; [reflexivity|]. split; [exact Hr|]. split; [exact Hn|].
  apply Ho; [|reflexivity].
  constructor. apply Reachable_run. constructor.
Defined.

End Examples.

(* ================================================================== *)
(** ** More of [handleFile]: outcomes, dispatch, overlapping loads *)
(* ================================================================== *)

Section IngestionOutcomes.
Context {K : Collaborators}.

(** The calls of the [try] block, in source order, for each branch of
    [if (extension === "stl")]. *)
Definition pipeline (extension : string) : list Callee :=
  if String.eqb extension "stl"
  then [FileArrayBuffer; STLParse; GeometryCenter]
  else [FileText; OBJParse; PrepareObject].

(** The callees an invocation calls, in order. *)
Definition calls (l : list Effect) : list Callee :=
  flat_map (fun e => match e with Call c => [c] | _ => [] end) l.

(** The models an invocation writes, in order. *)
Definition modelUpdates (l : list Effect) : list ModelPayload :=
  flat_map (fun e => match e with SetModel m => [m] | _ => [] end) l.

(** The errors an invocation logs, in order. *)
Definition errorsLogged (l : list Effect) : list Exn :=
  flat_map (fun e => match e with ConsoleError x => [x] | _ => [] end) l.

Definition isReaderCall (e : Effect) : bool :=
  match e with Call FileArrayBuffer | Call FileText => true | _ => false end.

(** An [async] function runs up to its first [await] in the caller's turn
    and the rest in a later turn.  The only [await]s of [handleFile] are on
    the readers: the effects up to and including the reader call, and the
    effects after it. *)
Fixpoint untilAwait (l : list Effect) : list Effect * list Effect :=
  match l with
  | [] => ([], [])
  | e :: l' =>
      if isReaderCall e then ([e], l')
      else let (a, b) := untilAwait l' in (e :: a, b)
  end.

Definition beforeAwait (file : File) : list Effect :=
  fst (untilAwait (handleFile file)).
Definition afterAwait (file : File) : list Effect :=
  snd (untilAwait (handleFile file)).

(** A turn of the event loop that runs a piece of a load. *)
Inductive Turn : Type :=
| Start (file : File)      (* the call of [handleFile], up to the [await] *)
| Resume (file : File).    (* the continuation after the [await] *)

Definition turnEffects (t : Turn) : list Effect :=
  match t with
  | Start file => beforeAwait file
  | Resume file => afterAwait file
  end.

Definition runTurn (st : AppState) (t : Turn) : AppState :=
  fold_left applyEffect (turnEffects t) st.

Definition runTurns (st : AppState) (ts : list Turn) : AppState :=
  fold_left runTurn ts st.

(** The status "Loaded n" and the model of [st] were written by one of
    the turns [ts]: the continuation of a load of a file named [n] that
    ran to its end and wrote the model [st] holds, after which no turn
    wrote anything. *)
Definition LoadedBy (ts : list Turn) (st : AppState) (n : string) : Prop :=
  exists ts1 file ext m ts2,
    ts = (ts1 ++ Resume file :: ts2)%list /\
    file_name file = n /\
    extensionOf n = Some ext /\
    unsupported (Some ext) = false /\
    Succeeds file ext m /\
    model st = Some m /\
    Forall (fun t => turnEffects t = []) ts2.

Lemma tryBlock_success (file : File) (ext : string) (m : ModelPayload) :
  Succeeds file ext m ->
  tryBlock file ext =
    ((map Call (pipeline ext)
      ++ [SetModel m; SetStatus (msgLoaded (file_name file))])%list, inr tt).
Proof.
  intros [buf g g' H1 H2 H3 H4 ->|txt o o' H1 H2 H3 H4 ->];
    unfold pipeline.
  - subst ext. unfold tryBlock, bind, call, tell. simpl.
    rewrite H2. simpl. rewrite H3. simpl. rewrite H4. reflexivity.
  - apply String.eqb_neq in H1. rewrite H1.
    unfold tryBlock, bind, call, tell. rewrite H1.
    rewrite H2. simpl. rewrite H3. simpl. rewrite H4. reflexivity.
Qed.

Lemma tryBlock_failure (file : File) (ext : string) (e : Exn) :
  Raises file ext e ->
  exists k, (k < 3)%nat /\
    tryBlock file ext = (map Call (firstn (S k) (pipeline ext)), inl e).
Proof.
  intros [H1 H2|buf H1 H2 H3|buf g H1 H2 H3 H4
         |H1 H2|txt H1 H2 H3|txt o H1 H2 H3 H4];
    try (subst ext); try (apply String.eqb_neq in H1);
    unfold pipeline, tryBlock, bind, call, tell; try rewrite H1; simpl.
  - exists 0%nat. rewrite H2. split; [lia|reflexivity].
  - exists 1%nat. rewrite H2. simpl. rewrite H3. split; [lia|reflexivity].
  - exists 2%nat. rewrite H2. simpl. rewrite H3. simpl. rewrite H4.
    split; [lia|reflexivity].
  - exists 0%nat. rewrite H2. split; [lia|reflexivity].
  - exists 1%nat. rewrite H2. simpl. rewrite H3. split; [lia|reflexivity].
  - exists 2%nat. rewrite H2. simpl. rewrite H3. simpl. rewrite H4.
    split; [lia|reflexivity].
Qed.

(** The [try] block either throws or runs to its end. *)
Lemma tryBlock_total (file : File) (ext : string) :
  (exists e, Raises file ext e) \/ (exists m, Succeeds file ext m).
Proof.
  destruct (String.eqb ext "stl") eqn:Eext.
  - apply String.eqb_eq in Eext.
    destruct (file_arrayBuffer file) as [e|buf] eqn:E1;
      [left; exists e; apply raise_arrayBuffer; assumption|].
    destruct (STLLoader_parse buf) as [e|g] eqn:E2;
      [left; exists e; eapply raise_STLParse; eassumption|].
    destruct (callCenter g) as [e|g'] eqn:E3;
      [left; exists e; eapply raise_center; eassumption|].
    right. eexists. eapply succeed_stl; eauto.
  - apply String.eqb_neq in Eext.
    destruct (file_text file) as [e|txt] eqn:E1;
      [left; exists e; apply raise_text; assumption|].
    destruct (OBJLoader_parse txt) as [e|o] eqn:E2;
      [left; exists e; eapply raise_OBJParse; eassumption|].
    destruct (callPrepareObject o) as [e|o'] eqn:E3;
      [left; exists e; eapply raise_prepareObject; eassumption|].
    right. eexists. eapply succeed_obj; eauto.
Qed.

Lemma fold_calls (l : list Callee) (st : AppState) :
  fold_left applyEffect (map Call l) st = st.
Proof. induction l as [|c l IH]; simpl; [reflexivity|exact IH]. Qed.

Lemma statusUpdates_calls (l : list Callee) : statusUpdates (map Call l) = [].
Proof. induction l as [|c l IH]; simpl; [reflexivity|exact IH]. Qed.

Lemma modelUpdates_calls (l : list Callee) : modelUpdates (map Call l) = [].
Proof. induction l as [|c l IH]; simpl; [reflexivity|exact IH]. Qed.

Lemma errorsLogged_calls (l : list Callee) : errorsLogged (map Call l) = [].
Proof. induction l as [|c l IH]; simpl; [reflexivity|exact IH]. Qed.

Lemma calls_calls (l : list Callee) : calls (map Call l) = l.
Proof. induction l as [|c l IH]; simpl; [reflexivity|rewrite IH; reflexivity]. Qed.

(** The whole trace of a supported load that runs to its end. *)
Lemma handleFile_success (file : File) (ext : string) (m : ModelPayload) :
  extensionOf (file_name file) = Some ext ->
  unsupported (Some ext) = false ->
  Succeeds file ext m ->
  handleFile file =
    (SetStatus (msgLoading (file_name file))
     :: map Call (pipeline ext)
     ++ [SetModel m; SetStatus (msgLoaded (file_name file))])%list.
Proof.
  intros E U S. rewrite (handleFile_supported file ext E U).
  rewrite (tryBlock_success file ext m S). reflexivity.
Qed.

(** The whole trace of a supported load that throws. *)
Lemma handleFile_failure (file : File) (ext : string) (e : Exn) :
  extensionOf (file_name file) = Some ext ->
  unsupported (Some ext) = false ->
  Raises file ext e ->
  exists k, (k < 3)%nat /\
    handleFile file =
      (SetStatus (msgLoading (file_name file))
       :: map Call (firstn (S k) (pipeline ext))
       ++ [ConsoleError e; SetStatus msgFailed])%list.
Proof.
  intros E U R. destruct (tryBlock_failure file ext e R) as (k & Hk & Ht).
  exists k. split; [exact Hk|].
  rewrite (handleFile_supported file ext E U), Ht. reflexivity.
Qed.

End IngestionOutcomes.

Section IngestionOutcomeFacts.
Context {K : Collaborators}.

Lemma msgLoaded_inj (a b : string) : msgLoaded a = msgLoaded b -> a = b.
Proof. unfold msgLoaded. simpl. intros H. injection H as H. exact H. Qed.

Lemma msgLoaded_not_loading (a b : string) : msgLoading a <> msgLoaded b.
Proof. unfold msgLoaded, msgLoading. simpl. discriminate. Qed.

Lemma msgLoaded_not_unsupported (b : string) : msgUnsupported <> msgLoaded b.
Proof. unfold msgLoaded, msgUnsupported. simpl. discriminate. Qed.

Lemma msgLoaded_not_failed (b : string) : msgFailed <> msgLoaded b.
Proof. unfold msgLoaded, msgFailed. simpl. discriminate. Qed.

Lemma msgLoaded_not_prompt (b : string) : msgPrompt <> msgLoaded b.
Proof. unfold msgLoaded, msgPrompt. simpl. discriminate. Qed.

Lemma supported_stl_or_obj (ext : string) :
  unsupported (Some ext) = false -> ext = "stl" \/ ext = "obj".
Proof.
  intros U. apply supported_iff in U. simpl in U.
  destruct U as [U|[U|[]]]; [right|left]; symmetry; exact U.
Qed.

(** The two turns of a load: what runs before the [await] and what runs
    after it. *)
Lemma turns_of_load (file : File) :
  (unsupported (extensionOf (file_name file)) = true /\
   beforeAwait file = [SetStatus msgUnsupported] /\ afterAwait file = []) \/
  (exists ext reader,
      extensionOf (file_name file) = Some ext /\
      unsupported (Some ext) = false /\
      beforeAwait file
        = [SetStatus (msgLoading (file_name file)); Call reader] /\
      ((exists m cs,
           Succeeds file ext m /\
           afterAwait file =
             (map Call cs
              ++ [SetModel m; SetStatus (msgLoaded (file_name file))])%list) \/
       (exists e cs,
           Raises file ext e /\
           afterAwait file =
             (map Call cs ++ [ConsoleError e; SetStatus msgFailed])%list))).
Proof.
  destruct (unsupported (extensionOf (file_name file))) eqn:U.
  - left. split; [reflexivity|]. unfold beforeAwait, afterAwait.
    rewrite (handleFile_unsupported file U). split; reflexivity.
  - right. destruct (extensionOf (file_name file)) as [ext|] eqn:E;
      [|discriminate].
    exists ext.
    exists (if String.eqb ext "stl" then FileArrayBuffer else FileText).
    split; [reflexivity|]. split; [exact U|].
    unfold beforeAwait, afterAwait.
    destruct (tryBlock_total file ext) as [[e R]|[m S]].
    + destruct (handleFile_failure file ext e E U R) as (k & Hk & Hf).
      rewrite Hf.
      assert (Hr : untilAwait
                     (SetStatus (msgLoading (file_name file))
                      :: map Call (firstn (S k) (pipeline ext))
                      ++ [ConsoleError e; SetStatus msgFailed])%list
                   = ([SetStatus (msgLoading (file_name file));
                       Call (if String.eqb ext "stl"
                             then FileArrayBuffer else FileText)],
                      (map Call (firstn k (tl (pipeline ext)))
                       ++ [ConsoleError e; SetStatus msgFailed])%list))
        by (unfold pipeline; destruct (String.eqb ext "stl"); reflexivity).
      rewrite Hr. simpl. split; [reflexivity|].
      right. exists e, (firstn k (tl (pipeline ext))).
      split; [exact R|reflexivity].
    + rewrite (handleFile_success file ext m E U S).
      assert (Hr : untilAwait
                     (SetStatus (msgLoading (file_name file))
                      :: map Call (pipeline ext)
                      ++ [SetModel m;
                          SetStatus (msgLoaded (file_name file))])%list
                   = ([SetStatus (msgLoading (file_name file));
                       Call (if String.eqb ext "stl"
                             then FileArrayBuffer else FileText)],
                      (map Call (tl (pipeline ext))
                       ++ [SetModel m;
                           SetStatus (msgLoaded (file_name file))])%list))
        by (unfold pipeline; destruct (String.eqb ext "stl"); reflexivity).
      rewrite Hr. simpl. split; [reflexivity|].
      left. exists m, (tl (pipeline ext)).
      split; [exact S|reflexivity].
Qed.

(** X1. A supported load whose reader, parser and normalizer all return:
    the status goes to "Loading <name>..." and then "Loaded <name>", and
    the model is written once, with the normalized model, whatever was
    shown before. *)
Theorem successful_load_replaces_model
  (file : File) (ext : string) (m : ModelPayload) (st : AppState) :
  extensionOf (file_name file) = Some ext ->
  unsupported (Some ext) = false ->
  Succeeds file ext m ->
  model (load st file) = Some m /\
  status (load st file) = msgLoaded (file_name file) /\
  statusUpdates (handleFile file)
    = [msgLoading (file_name file); msgLoaded (file_name file)] /\
  modelUpdates (handleFile file) = [m].
Proof.
  intros E U S. unfold load. rewrite (handleFile_success file ext m E U S).
  simpl. unfold statusUpdates, modelUpdates.
  rewrite fold_left_app, fold_calls, !flat_map_app.
  fold (statusUpdates (map Call (pipeline ext))).
  fold (modelUpdates (map Call (pipeline ext))).
  rewrite statusUpdates_calls, modelUpdates_calls.
  repeat split; reflexivity.
Qed.

(** X2. Dispatch by extension.  A load that passes the guard has the
    extension "stl" or "obj".  For "stl" it calls the binary reader; if
    that returns, the STL parser; if that returns, [geometry.center()];
    it calls nothing after a throw, and writes a model, a geometry, only
    when all three returned.  For "obj" the same with the text reader, the
    OBJ parser and [prepareObject], and the model is an object.  It never
    calls the other format's reader or parser. *)
Theorem dispatch_by_extension (file : File) (ext : string) :
  extensionOf (file_name file) = Some ext ->
  unsupported (Some ext) = false ->
  (ext = "stl" /\
   calls (handleFile file)
   = match file_arrayBuffer file with
     | inl _ => [FileArrayBuffer]
     | inr buf =>
         match STLLoader_parse buf with
         | inl _ => [FileArrayBuffer; STLParse]
         | inr _ => [FileArrayBuffer; STLParse; GeometryCenter]
         end
     end /\
   modelUpdates (handleFile file)
   = match file_arrayBuffer file with
     | inl _ => []
     | inr buf =>
         match STLLoader_parse buf with
         | inl _ => []
         | inr g =>
             match callCenter g with
             | inl _ => []
             | inr centered => [GeometryKind centered]
             end
         end
     end) \/
  (ext = "obj" /\
   calls (handleFile file)
   = match file_text file with
     | inl _ => [FileText]
     | inr text =>
         match OBJLoader_parse text with
         | inl _ => [FileText; OBJParse]
         | inr _ => [FileText; OBJParse; PrepareObject]
         end
     end /\
   modelUpdates (handleFile file)
   = match file_text file with
     | inl _ => []
     | inr text =>
         match OBJLoader_parse text with
         | inl _ => []
         | inr o =>
             match callPrepareObject o with
             | inl _ => []
             | inr prepared => [ObjectKind prepared]
             end
         end
     end).
Proof.
  intros E U.
  destruct (supported_stl_or_obj ext U) as [-> | ->]; [left|right];
    (split; [reflexivity|]);
    rewrite (handleFile_supported file _ E U);
    unfold tryBlock, tryCatch, bind, call, tell; simpl.
  - destruct (file_arrayBuffer file) as [e|buf]; simpl;
      [split; reflexivity|].
    destruct (STLLoader_parse buf) as [e|g]; simpl; [split; reflexivity|].
    destruct (callCenter g) as [e|g']; simpl; split; reflexivity.
  - destruct (file_text file) as [e|txt]; simpl; [split; reflexivity|].
    destruct (OBJLoader_parse txt) as [e|o]; simpl; [split; reflexivity|].
    destruct (callPrepareObject o) as [e|o']; simpl; split; reflexivity.
Qed.

(** X3. Every load ends in exactly one of three ways, each with its
    cause: the extension is unsupported, and the status is the unsupported
    message, the model is as it was and nothing was called; or reader,
    parser and normalizer all returned, and the status is "Loaded <name>"
    over the normalized model; or one of them threw, and the status is the
    failure message with the model as it was.  The status is never left at
    "Loading ...". *)
Theorem load_outcomes (file : File) (st : AppState) :
  (unsupported (extensionOf (file_name file)) = true /\
   status (load st file) = msgUnsupported /\
   model (load st file) = model st /\
   calls (handleFile file) = []) \/
  (exists ext m,
      extensionOf (file_name file) = Some ext /\
      unsupported (Some ext) = false /\
      Succeeds file ext m /\
      status (load st file) = msgLoaded (file_name file) /\
      model (load st file) = Some m) \/
  (exists ext e,
      extensionOf (file_name file) = Some ext /\
      unsupported (Some ext) = false /\
      Raises file ext e /\
      status (load st file) = msgFailed /\
      model (load st file) = model st).
Proof.
  destruct (unsupported (extensionOf (file_name file))) eqn:U.
  - left. unfold load. rewrite (handleFile_unsupported file U).
    repeat split; reflexivity.
  - right. destruct (extensionOf (file_name file)) as [ext|] eqn:E;
      [|discriminate].
    destruct (tryBlock_total file ext) as [[e R]|[m S]].
    + right. exists ext, e.
      destruct (handleFile_failure file ext e E U R) as (k & Hk & Hf).
      unfold load. rewrite Hf. simpl.
      rewrite fold_left_app, fold_calls.
      repeat split; try reflexivity; assumption.
    + left. exists ext, m. unfold load.
      rewrite (handleFile_success file ext m E U S). simpl.
      rewrite fold_left_app, fold_calls.
      repeat split; try reflexivity; assumption.
Qed.

Lemma runTurns_snoc (st : AppState) (ts : list Turn) (t : Turn) :
  runTurns st (ts ++ [t]) = runTurn (runTurns st ts) t.
Proof. unfold runTurns. rewrite fold_left_app. reflexivity. Qed.

Lemma runTurn_silent (st : AppState) (t : Turn) :
  turnEffects t = [] -> runTurn st t = st.
Proof. intros H. unfold runTurn. rewrite H. reflexivity. Qed.

(** After any turns: a status "Loaded n" was written, together with the
    model, by one of the turns that ran, and no later turn wrote
    anything; or it was there before the turns and none of them wrote
    anything. *)
Lemma loaded_status_origin (ts : list Turn) (st : AppState) (n : string) :
  status (runTurns st ts) = msgLoaded n ->
  LoadedBy ts (runTurns st ts) n \/
  (status st = msgLoaded n /\ runTurns st ts = st /\
   Forall (fun t => turnEffects t = []) ts).
Proof.
  induction ts as [|t ts IH] using rev_ind; intros Hn.
  - right. split; [exact Hn|]. split; [reflexivity|constructor].
  - rewrite runTurns_snoc in *.
    assert (Hsilent :
              turnEffects t = [] ->
              LoadedBy (ts ++ [t]) (runTurn (runTurns st ts) t) n \/
              (status st = msgLoaded n /\
               runTurn (runTurns st ts) t = st /\
               Forall (fun t => turnEffects t = []) (ts ++ [t]))).
    { intros Ht. rewrite (runTurn_silent _ t Ht) in *.
      destruct (IH Hn) as [(ts1 & f & ext & m & ts2 & -> & H)|(H1 & H2 & H3)].
      - left. exists ts1, f, ext, m, (ts2 ++ [t])%list.
        rewrite <- app_assoc. simpl.
        destruct H as (Hf & He & Hu & Hs & Hm & Hq).
        repeat split; try assumption.
        apply Forall_app. split; [exact Hq|]. constructor; [exact Ht|constructor].
      - right. split; [exact H1|]. split; [exact H2|].
        apply Forall_app. split; [exact H3|]. constructor; [exact Ht|constructor]. }
    unfold runTurn in Hn.
    destruct t as [file|file]; simpl in Hn;
      destruct (turns_of_load file)
        as [(U & Hb & Ha)|(ext & reader & E & U & Hb & Hafter)].
    + rewrite Hb in Hn. simpl in Hn.
      exfalso. exact (msgLoaded_not_unsupported n Hn).
    + rewrite Hb in Hn. simpl in Hn.
      exfalso. exact (msgLoaded_not_loading _ n Hn).
    + apply Hsilent. exact Ha.
    + destruct Hafter as [(m & cs & S & Ha)|(e & cs & R & Ha)];
        rewrite Ha, fold_left_app, fold_calls in Hn; simpl in Hn.
      * apply msgLoaded_inj in Hn. subst n. left.
        exists ts, file, ext, m, []. unfold runTurn. simpl.
        rewrite Ha, fold_left_app, fold_calls. simpl.
        repeat split; try assumption; try reflexivity. constructor.
      * exfalso. exact (msgLoaded_not_failed n Hn).
Qed.

(** X4. Overlapping loads.  A load runs in two turns, before and after its
    [await]; turns of different loads may come in any order.  Whatever the
    order, when the status reads "Loaded n" it was written by the
    continuation of one of the loads that ran, a load of a file named [n]
    whose reader, parser and normalizer returned; the model shown is the
    one that same continuation wrote, and no turn after it wrote
    anything.  A load run alone is its two turns back to back. *)
Theorem status_matches_model_under_overlap :
  (forall (ts : list Turn) (n : string),
      status (runTurns initialApp ts) = msgLoaded n ->
      LoadedBy ts (runTurns initialApp ts) n) /\
  (forall (st : AppState) (ts : list Turn) (n : string),
      status (runTurns st ts) = msgLoaded n ->
      LoadedBy ts (runTurns st ts) n \/
      (status st = msgLoaded n /\ runTurns st ts = st /\
       Forall (fun t => turnEffects t = []) ts)) /\
  (forall (st : AppState) (file : File),
      runTurns st [Start file; Resume file] = load st file).
Proof.
  split; [|split].
  - intros ts n Hn.
    destruct (loaded_status_origin ts initialApp n Hn) as [H|(H & _)];
      [exact H|].
    exfalso. exact (msgLoaded_not_prompt n H).
  - intros st ts n. apply loaded_status_origin.
  - intros st file. unfold runTurns, runTurn, load. simpl.
    rewrite <- fold_left_app. f_equal.
    unfold beforeAwait, afterAwait.
    generalize (handleFile file) as l.
    induction l as [|e l IH]; simpl; [reflexivity|].
    destruct (isReaderCall e); [reflexivity|].
    destruct (untilAwait l) as [a b]. simpl in *. rewrite IH. reflexivity.
Qed.

End IngestionOutcomeFacts.

(* ================================================================== *)
(** ** More of the format dispatcher: letter case and the shape of the
       extension *)
(* ================================================================== *)

Section DispatcherMore.

(** Lower-casing neither makes nor removes a dot. *)
Lemma lowerChar_dot (c : ascii) :
  Ascii.eqb (JS.lowerChar c) dot = Ascii.eqb c dot.
Proof.
  destruct c as [b0 b1 b2 b3 b4 b5 b6 b7];
    destruct b0, b1, b2, b3, b4, b5, b6, b7; reflexivity.
Qed.

Lemma lowerChar_idem (c : ascii) :
  JS.lowerChar (JS.lowerChar c) = JS.lowerChar c.
Proof.
  destruct c as [b0 b1 b2 b3 b4 b5 b6 b7];
    destruct b0, b1, b2, b3, b4, b5, b6, b7; reflexivity.
Qed.

Lemma toLowerCase_idem (s : string) :
  JS.toLowerCase (JS.toLowerCase s) = JS.toLowerCase s.
Proof.
  induction s as [|c s IH]; simpl; [reflexivity|].
  rewrite lowerChar_idem, IH. reflexivity.
Qed.

Lemma contains_dot_toLowerCase (s : string) :
  JS.contains dot (JS.toLowerCase s) = JS.contains dot s.
Proof.
  induction s as [|c s IH]; simpl; [reflexivity|].
  rewrite lowerChar_dot, IH. reflexivity.
Qed.

(** Splitting at dots and lower-casing commute. *)
Lemma split_toLowerCase (s : string) :
  JS.split dot (JS.toLowerCase s) = map JS.toLowerCase (JS.split dot s).
Proof.
  induction s as [|c s IH]; simpl; [reflexivity|].
  rewrite lowerChar_dot, IH.
  destruct (Ascii.eqb c dot); [reflexivity|].
  destruct (JS.split dot s); reflexivity.
Qed.

Lemma pop_map (f : string -> string) (l : list string) :
  JS.pop (map f l) = option_map f (JS.pop l).
Proof.
  induction l as [|a l IH]; simpl; [reflexivity|].
  destruct l as [|b l]; [reflexivity|]. exact IH.
Qed.

Lemma extensionOf_lowered (name : string) :
  extensionOf name = JS.pop (JS.split dot (JS.toLowerCase name)).
Proof.
  unfold extensionOf. rewrite split_toLowerCase, pop_map. reflexivity.
Qed.

(** No segment of a split contains the separator. *)
Lemma split_segments_no_sep (sep : ascii) (s : string) :
  Forall (fun seg => JS.contains sep seg = false) (JS.split sep s).
Proof.
  induction s as [|c s IH]; simpl; [repeat constructor|].
  destruct (Ascii.eqb c sep) eqn:Ec; [constructor; [reflexivity|exact IH]|].
  destruct (JS.split sep s) as [|seg segs];
    [repeat constructor; simpl; rewrite Ec; reflexivity|].
  inversion IH as [|? ? Hseg Hsegs]; subst.
  constructor; [|exact Hsegs]. simpl. rewrite Ec, Hseg. reflexivity.
Qed.

Lemma pop_In (l : list string) (x : string) : JS.pop l = Some x -> In x l.
Proof.
  induction l as [|a l IH]; simpl; [discriminate|].
  destruct l as [|b l]; [intros H; injection H as ->; left; reflexivity|].
  intros H. right. apply IH. exact H.
Qed.

(** A name written in ASCII: every code is below 128.  On such a name
    [JS.toLowerCase] is [String.prototype.toLowerCase]. *)
Fixpoint isASCII (s : string) : bool :=
  match s with
  | EmptyString => true
  | String c rest => (nat_of_ascii c <? 128)%nat && isASCII rest
  end.

(** X5. For names written in ASCII, classification ignores letter case in
    the whole name: two such names that lower-case to the same string have
    the same extension, so their loads pass or fail the guard together and
    take the same parser. *)
Theorem classification_ignores_case (n1 n2 : string) :
  isASCII n1 = true -> isASCII n2 = true ->
  JS.toLowerCase n1 = JS.toLowerCase n2 ->
  extensionOf n1 = extensionOf n2 /\
  unsupported (extensionOf n1) = unsupported (extensionOf n2).
Proof.
  intros _ _ H.
  assert (E : extensionOf n1 = extensionOf n2)
    by (rewrite !extensionOf_lowered, H; reflexivity).
  rewrite E. split; reflexivity.
Qed.

(** X6. The extension [handleFile] computes always exists, contains no dot
    and is in lower case; it is empty exactly for a name that is empty or
    ends in a dot, and such a name is unsupported. *)
Theorem extension_shape :
  (forall name : string,
      exists e, extensionOf name = Some e /\
                JS.contains dot e = false /\ JS.toLowerCase e = e) /\
  (forall pre : string,
      extensionOf (pre ++ ".") = Some "" /\
      unsupported (extensionOf (pre ++ ".")) = true) /\
  (forall name : string,
      extensionOf name = Some "" ->
      name = "" \/ exists pre, name = pre ++ ".").
Proof.
  split; [|split].
  - intros name. unfold extensionOf.
    destruct (JS.pop (JS.split dot name)) as [seg|] eqn:E.
    + exists (JS.toLowerCase seg). split; [reflexivity|].
      split; [|apply toLowerCase_idem].
      rewrite contains_dot_toLowerCase.
      pose proof (split_segments_no_sep dot name) as F.
      rewrite Forall_forall in F. apply F. apply pop_In. exact E.
    + exfalso. destruct (extensionOf_some name) as [e He].
      unfold extensionOf in He. rewrite E in He. discriminate.
  - intros pre. unfold extensionOf.
    change (pre ++ ".") with (pre ++ String dot "").
    rewrite (pop_split_last dot pre "" eq_refl). split; reflexivity.
  - intros name. unfold extensionOf.
    induction name as [|c name IH]; intros H; [left; reflexivity|]. right.
    simpl in H. destruct (Ascii.eqb c dot) eqn:Ec.
    + apply Ascii.eqb_eq in Ec. subst c.
      assert (Hp : JS.pop (EmptyString :: JS.split dot name)
                   = JS.pop (JS.split dot name)).
      { pose proof (split_not_nil dot name) as Hn. simpl.
        destruct (JS.split dot name); [contradiction|reflexivity]. }
      rewrite Hp in H. destruct (IH H) as [->|[pre ->]].
      * exists "". reflexivity.
      * exists (String dot pre). reflexivity.
    + destruct (JS.split dot name) as [|seg segs] eqn:Es;
        [simpl in H; discriminate|].
      destruct segs as [|seg' segs'].
      * simpl in H. discriminate.
      * assert (Hp : JS.pop (String c seg :: seg' :: segs')
                     = JS.pop (seg :: seg' :: segs')) by reflexivity.
        rewrite Hp in H. destruct (IH H) as [->|[pre ->]].
        -- simpl in Es. discriminate.
        -- exists (String c pre). reflexivity.
Qed.

End DispatcherMore.

(* ================================================================== *)
(** ** More of the normalizer: the box, and how the two passes compose *)
(* ================================================================== *)

Section NormalizerMore.
Context {C : Coord}.
Import THREE.

Ltac hierarchy_induction o d cs IH :=
  pattern o; revert o; apply Object3D_forall_ind; intros d cs IH.

Lemma isEmpty_expandByPoints (ps : list Vector3) (b : Box3) :
  isEmpty (expandByPoints b ps) = isEmpty b && (List.length ps =? 0)%nat.
Proof.
  unfold expandByPoints. revert b.
  induction ps as [|p ps IH]; intros b; simpl;
    [rewrite andb_true_r; reflexivity|].
  rewrite IH. destruct b; simpl; rewrite ?andb_false_r; reflexivity.
Qed.

Lemma isEmpty_expandByObject (o : Object3D) :
  forall origin b,
    isEmpty (expandByObject origin b o)
    = isEmpty b && (vertexCount o =? 0)%nat.
Proof.
  hierarchy_induction o d cs IH. intros origin b. simpl.
  set (world := vadd origin (position d)).
  set (b' := match geometry d with
             | Some g => expandByPoints b (map (vadd world) g)
             | None => b
             end).
  assert (Hb' : isEmpty b'
                = isEmpty b &&
                  (match geometry d with
                   | Some g => List.length g | None => 0%nat end =? 0)%nat).
  { subst b'. destruct (geometry d) as [g|];
      [rewrite isEmpty_expandByPoints, length_map; reflexivity
      |simpl; rewrite andb_true_r; reflexivity]. }
  assert (Hf : forall b0,
             isEmpty (fold_left (expandByObject world) cs b0)
             = isEmpty b0 && (list_sum (map vertexCount cs) =? 0)%nat).
  { clearbody world. clear Hb' b'.
    induction IH as [|c cs Hc _ IHcs]; intros b0; simpl;
      [rewrite andb_true_r; reflexivity|].
    rewrite IHcs, Hc, <- andb_assoc. f_equal.
    destruct (vertexCount c); reflexivity. }
  rewrite Hf, Hb', <- andb_assoc. f_equal.
  destruct (match geometry d with
            | Some g => List.length g | None => 0%nat end); reflexivity.
Qed.

(** The bounding box is empty exactly when there is no vertex: for a
    geometry, when its vertex list is empty; for a hierarchy, when no node
    of it has a vertex.  (An empty box is what makes centering a no-op.) *)
Lemma box_empty_iff_no_vertex :
  (forall g : BufferGeometry,
      isEmpty (computeBoundingBox g) = true <-> g = []) /\
  (forall o : Object3D,
      isEmpty (setFromObject o) = true <-> vertexCount o = 0%nat).
Proof.
  split.
  - intros g. unfold computeBoundingBox.
    rewrite isEmpty_expandByPoints. simpl.
    rewrite Nat.eqb_eq. apply length_zero_iff_nil.
  - intros o. unfold setFromObject. rewrite isEmpty_expandByObject. simpl.
    apply Nat.eqb_eq.
Qed.

(** A callback that keeps geometry and position leaves every box as it
    is. *)
Lemma expandByObject_traverse (f : NodeData -> NodeData) (o : Object3D) :
  (forall d, geometry (f d) = geometry d) ->
  (forall d, position (f d) = position d) ->
  forall origin b,
    expandByObject origin b (traverse f o) = expandByObject origin b o.
Proof.
  intros Hg Hp. hierarchy_induction o d cs IH. intros origin b. simpl.
  rewrite Hg, Hp.
  generalize (match geometry d with
              | Some g =>
                  expandByPoints b (map (vadd (vadd origin (position d))) g)
              | None => b
              end) as b'.
  generalize (vadd origin (position d)) as world. intros world.
  induction IH as [|c cs Hc _ IHcs]; intros b'; simpl; [reflexivity|].
  rewrite Hc. apply IHcs.
Qed.

Lemma replaceMaterial_setPosition (p : Vector3) (d : NodeData) :
  replaceMaterial (setPosition p d) = setPosition p (replaceMaterial d).
Proof. unfold replaceMaterial. simpl. destruct (isMesh d); reflexivity. Qed.

Lemma replaceMaterial_idem (d : NodeData) :
  replaceMaterial (replaceMaterial d) = replaceMaterial d.
Proof. unfold replaceMaterial. destruct (isMesh d) eqn:E; simpl; rewrite E; reflexivity. Qed.

Lemma traverse_idem (f : NodeData -> NodeData) (o : Object3D) :
  (forall d, f (f d) = f d) -> traverse f (traverse f o) = traverse f o.
Proof.
  intros Hf. hierarchy_induction o d cs IH. simpl. rewrite Hf. f_equal.
  rewrite map_map. apply map_ext_Forall. exact IH.
Qed.

Lemma nodes_geometry_traverse (o : Object3D) :
  map geometry (nodes (traverse replaceMaterial o)) = map geometry (nodes o).
Proof.
  rewrite nodes_traverse, map_map. apply map_ext.
  apply replaceMaterial_geometry.
Qed.

(** X7. The two passes of [prepareObject] do not interact: the bounding
    box, and so the centre, is the same before and after the materials are
    replaced, running the passes in the other order gives the same object,
    and no vertex of any node is rewritten. *)
Theorem prepareObject_passes_commute (o : Object3D) :
  setFromObject (traverse replaceMaterial o) = setFromObject o /\
  prepareObject o = traverse replaceMaterial (centerObject o) /\
  map geometry (nodes (prepareObject o)) = map geometry (nodes o).
Proof.
  assert (Hbox : setFromObject (traverse replaceMaterial o) = setFromObject o).
  { unfold setFromObject. apply expandByObject_traverse.
    - apply replaceMaterial_geometry.
    - apply replaceMaterial_position. }
  split; [exact Hbox|]. split.
  - unfold prepareObject, centerObject. rewrite Hbox.
    destruct o as [d cs]. simpl.
    rewrite replaceMaterial_setPosition, replaceMaterial_position.
    reflexivity.
  - unfold prepareObject.
    transitivity (map geometry (nodes (traverse replaceMaterial o)));
      [|apply nodes_geometry_traverse].
    generalize (traverse replaceMaterial o) as o'. intros [d cs].
    reflexivity.
Qed.

(** X8. Normalizing twice: the second [prepareObject] changes nothing but,
    at most, the position of the root.  The material pass is idempotent,
    every child subtree comes out identical, and the root keeps its mesh
    flag, its material and its geometry. *)
Theorem prepareObject_twice (o : Object3D) :
  traverse replaceMaterial (traverse replaceMaterial o)
    = traverse replaceMaterial o /\
  children (prepareObject (prepareObject o)) = children (prepareObject o) /\
  exists p,
    data (prepareObject (prepareObject o))
    = setPosition p (data (prepareObject o)).
Proof.
  assert (Hi : forall x, traverse replaceMaterial (traverse replaceMaterial x)
                         = traverse replaceMaterial x)
    by (intros x; apply traverse_idem; apply replaceMaterial_idem).
  split; [apply Hi|].
  unfold prepareObject.
  destruct (traverse replaceMaterial o) as [d cs] eqn:Et.
  assert (Hcs : map (traverse replaceMaterial) cs = cs).
  { pose proof (Hi o) as H. rewrite Et in H. simpl in H.
    injection H as _ H. exact H. }
  assert (Hd : replaceMaterial d = d).
  { pose proof (Hi o) as H. rewrite Et in H. simpl in H.
    injection H as H _. exact H. }
  unfold centerObject at 2 3. simpl.
  rewrite Hcs, replaceMaterial_setPosition, Hd.
  split; [reflexivity|]. eexists. reflexivity.
Qed.

End NormalizerMore.

(* ================================================================== *)
(** ** More of [Scene]: where the manipulator is, loads, and toggling *)
(* ================================================================== *)

Section DualModeMore.
Context {K : Collaborators}.
Import DualMode.

(** What every reachable scene also satisfies: the attachment target is the
    group of the model shown, and the manipulator is mounted exactly where
    the JSX renders it. *)
Definition MountInv (s : Scene) : Prop :=
  transformTarget s = modelRef s /\
  isSome (gizmo s) = isSome (model s) && showGizmo s.

Ltac scene_destruct s :=
  destruct s as [[?|] [|] [[]|] [[[|]]|] [[[|]]|]];
  unfold MountInv, SceneInv, DragState, gizmoRendered, modelRef,
    isOrbitEnabled, mode in *;
  simpl in *.

Lemma MountInv_step (s : Scene) (ev : Event) :
  MountInv s -> MountInv (step s ev).
Proof.
  intros [Ht Hg]. destruct ev as [m'|[|]|[|]];
    scene_destruct s; try discriminate; split; reflexivity.
Qed.

Lemma Reachable_mount (s : Scene) : Reachable s -> MountInv s.
Proof.
  induction 1 as [|s ev _ IH]; [split; reflexivity|].
  apply MountInv_step. exact IH.
Qed.

(** X9. In every reachable scene the manipulator is mounted exactly when
    the gizmo mode is on and a model is loaded, and the attachment target
    is set exactly when a model is loaded.  So with no model there is no
    manipulator in either mode, and a [dragging-changed] event can only
    come in the gizmo mode with a model on screen. *)
Theorem manipulator_mounted_iff (s : Scene) :
  Reachable s ->
  isSome (gizmo s) = isSome (model s) && showGizmo s /\
  isSome (transformTarget s) = isSome (model s) /\
  (model s = None -> gizmo s = None) /\
  (mode s = OrbitOnly -> gizmo s = None).
Proof.
  intros R. destruct (Reachable_mount s R) as [Ht Hg].
  split; [exact Hg|]. split; [|split].
  - rewrite Ht. unfold modelRef. destruct (model s); reflexivity.
  - intros Hm. rewrite Hm in Hg. simpl in Hg.
    destruct (gizmo s); [discriminate|reflexivity].
  - unfold mode. intros Hm. destruct (showGizmo s); [discriminate|].
    rewrite andb_false_r in Hg.
    destruct (gizmo s); [discriminate|reflexivity].
Qed.

(** A model arriving from [handleFile] changes the model and points the
    attachment target at its group, and leaves the interaction as it is. *)
Lemma model_change_keeps_interaction (s : Scene) (m : ModelPayload) :
  Reachable s ->
  model (step s (ModelChanged m)) = Some m /\
  transformTarget (step s (ModelChanged m)) = Some TheGroup /\
  showGizmo (step s (ModelChanged m)) = showGizmo s /\
  isOrbitEnabled (step s (ModelChanged m)) = isOrbitEnabled s /\
  DragState (step s (ModelChanged m)) = DragState s.
Proof.
  intros R. destruct (Reachable_mount s R) as [Ht Hg].
  destruct (Reachable_inv s R) as [Ho _].
  scene_destruct s; try discriminate; repeat split; reflexivity.
Qed.

(** X10. Toggling the checkbox there and back.  From the gizmo mode, off
    and on again gives back the same scene when no drag was in progress;
    a drag in progress is dropped and the orbit control comes back
    enabled.  From the orbit-only mode, on and off again always gives back
    the same scene. *)
Theorem toggle_round_trip (s : Scene) :
  Reachable s ->
  (mode s = GizmoRotate ->
   let s' := step (step s (ShowGizmoChanged false)) (ShowGizmoChanged true) in
   model s' = model s /\ mode s' = GizmoRotate /\
   DragState s' = false /\ isOrbitEnabled s' = Some true /\
   (DragState s = false -> s' = s)) /\
  (mode s = OrbitOnly ->
   step (step s (ShowGizmoChanged true)) (ShowGizmoChanged false) = s).
Proof.
  intros R. destruct (Reachable_mount s R) as [Ht Hg].
  destruct (Reachable_inv s R) as [Ho _].
  scene_destruct s; try discriminate;
    (split; [intros Hm|intros Hm]); try discriminate;
    repeat split; try reflexivity; intros Hd; try discriminate;
    reflexivity.
Qed.

End DualModeMore.

(* ================================================================== *)
(** ** The slider viewer: the rotation state of [App] *)
(* ================================================================== *)

Module SliderViewer.
Section WithCoord.
Context {C : Coord}.

(** [type Rotation = { x: number; y: number; z: number }], in degrees. *)
Record Rotation : Type := mkRotation { x : num; y : num; z : num }.

(** [keyof Rotation] *)
Inductive Axis : Type := AxisX | AxisY | AxisZ.

Definition axis_eqb (a b : Axis) : bool :=
  match a, b with
  | AxisX, AxisX | AxisY, AxisY | AxisZ, AxisZ => true
  | _, _ => false
  end.

(** [rotation[axis]] *)
Definition get (axis : Axis) (r : Rotation) : num :=
  match axis with AxisX => x r | AxisY => y r | AxisZ => z r end.

(** [updateRotation(axis, value)]:
    [setRotation((current) => ({ ...current, [axis]: value }))] *)
Definition updateRotation (axis : Axis) (value : num) (current : Rotation)
  : Rotation :=
  match axis with
  | AxisX => mkRotation value (y current) (z current)
  | AxisY => mkRotation (x current) value (z current)
  | AxisZ => mkRotation (x current) (y current) value
  end.

(** [useState<Rotation>({ x: 0, y: 0, z: 0 })], and what the reset button
    sets. *)
Definition zeroRotation : Rotation := mkRotation zero zero zero.

(** What the user does to the rotation: move a slider, or click "Reset
    rotation". *)
Inductive Event : Type :=
| SliderChanged (axis : Axis) (value : num)
| ResetClicked.

Definition step (r : Rotation) (ev : Event) : Rotation :=
  match ev with
  | SliderChanged axis value => updateRotation axis value r
  | ResetClicked => zeroRotation
  end.

Definition run (r : Rotation) (evs : list Event) : Rotation :=
  fold_left step evs r.

(** The last thing written to [axis], reading the events latest first: the
    value of a change of that slider, or zero for a reset. *)
Fixpoint lastWriteFrom (axis : Axis) (latestFirst : list Event)
  : option num :=
  match latestFirst with
  | [] => None
  | ResetClicked :: _ => Some zero
  | SliderChanged a v :: earlier =>
      if axis_eqb a axis then Some v else lastWriteFrom axis earlier
  end.

Definition lastWrite (axis : Axis) (evs : list Event) : option num :=
  lastWriteFrom axis (rev evs).

(** The values the sliders sent. *)
Definition sliderValues (evs : list Event) : list num :=
  flat_map (fun ev => match ev with
                      | SliderChanged _ v => [v]
                      | ResetClicked => []
                      end) evs.

End WithCoord.
End SliderViewer.

Section SliderViewerFacts.
Context {C : Coord}.
Import SliderViewer.

Lemma get_updateRotation (a b : Axis) (v : num) (r : Rotation) :
  get b (updateRotation a v r) = if axis_eqb a b then v else get b r.
Proof. destruct a, b; reflexivity. Qed.

Lemma run_snoc (r : Rotation) (evs : list Event) (ev : Event) :
  run r (evs ++ [ev]) = step (run r evs) ev.
Proof. unfold run. rewrite fold_left_app. reflexivity. Qed.

(** X13. The three sliders are independent and the last write wins: after
    any sequence of slider changes and resets, an axis holds the value of
    the latest change of its own slider since the latest reset, zero if a
    reset came later, and its starting value if neither happened.  So
    every value of the rotation is zero or a value a slider sent: whatever
    holds of zero and of all slider values (such as lying in the sliders'
    range) holds of the rotation. *)
Theorem rotation_is_last_write :
  (forall (r0 : Rotation) (evs : list Event) (axis : Axis),
      get axis (run r0 evs)
      = match lastWrite axis evs with
        | Some v => v
        | None => get axis r0
        end) /\
  (forall (P : num -> Prop) (evs : list Event) (axis : Axis),
      P zero -> Forall P (sliderValues evs) ->
      P (get axis (run zeroRotation evs))).
Proof.
  assert (A : forall (r0 : Rotation) (evs : list Event) (axis : Axis),
             get axis (run r0 evs)
             = match lastWrite axis evs with
               | Some v => v
               | None => get axis r0
               end).
  { intros r0 evs axis. unfold lastWrite.
    induction evs as [|ev evs IH] using rev_ind; [reflexivity|].
    rewrite run_snoc, rev_app_distr. simpl.
    destruct ev as [a v|]; simpl.
    - rewrite get_updateRotation.
      destruct (axis_eqb a axis); [reflexivity|exact IH].
    - destruct axis; reflexivity. }
  split; [exact A|].
  intros P evs axis H0 Hall. rewrite A.
  assert (B : forall l v, lastWriteFrom axis l = Some v ->
                          v = zero \/ In v (sliderValues (rev l))).
  { induction l as [|ev l IH]; simpl; [discriminate|].
    intros v. destruct ev as [a w|].
    - destruct (axis_eqb a axis).
      + intros H. injection H as <-. right.
        unfold sliderValues. rewrite flat_map_app. apply in_or_app.
        right. left. reflexivity.
      + intros H. destruct (IH v H) as [Hz|Hin]; [left; exact Hz|right].
        unfold sliderValues in *. rewrite flat_map_app. apply in_or_app.
        left. exact Hin.
    - intros H. injection H as <-. left. reflexivity. }
  unfold lastWrite.
  destruct (lastWriteFrom axis (rev evs)) as [v|] eqn:E.
  - destruct (B _ _ E) as [->|Hin]; [exact H0|].
    rewrite rev_involutive in Hin.
    rewrite Forall_forall in Hall. apply Hall. exact Hin.
  - destruct axis; exact H0.
Qed.

End SliderViewerFacts.

(* ================================================================== *)
(** ** [App] and [Scene] together: a load seen from the scene *)
(* ================================================================== *)

Section LoadIntoScene.
Context {K : Collaborators}.
Import DualMode.

(** [App] passes its [model] state to [Scene] as a prop: every [setModel]
    of a load reaches the scene as a change of that prop. *)
Definition loadIntoScene (s : Scene) (file : File) : Scene :=
  DualMode.run s (map ModelChanged (modelUpdates (handleFile file))).

(** A load writes the model at most once, and only the normalized model of
    a load that ran to its end. *)
Lemma modelUpdates_handleFile (file : File) :
  modelUpdates (handleFile file) = [] \/
  exists ext m,
    extensionOf (file_name file) = Some ext /\
    unsupported (Some ext) = false /\
    Succeeds file ext m /\ modelUpdates (handleFile file) = [m].
Proof.
  destruct (unsupported (extensionOf (file_name file))) eqn:U.
  - left. rewrite (handleFile_unsupported file U). reflexivity.
  - destruct (extensionOf (file_name file)) as [ext|] eqn:E; [|discriminate].
    destruct (tryBlock_total file ext) as [[e R]|[m S]].
    + left. destruct (handleFile_failure file ext e E U R) as (k & _ & Hf).
      rewrite Hf.
      change (modelUpdates
                (map Call (firstn (S k) (pipeline ext))
                 ++ [ConsoleError e; SetStatus msgFailed])%list = []).
      unfold modelUpdates. rewrite flat_map_app.
      fold (modelUpdates (map Call (firstn (S k) (pipeline ext)))).
      rewrite modelUpdates_calls. reflexivity.
    + right. exists ext, m. repeat split; try assumption.
      rewrite (handleFile_success file ext m E U S).
      change (modelUpdates
                (map Call (pipeline ext)
                 ++ [SetModel m; SetStatus (msgLoaded (file_name file))])%list
              = [m]).
      unfold modelUpdates. rewrite flat_map_app.
      fold (modelUpdates (map Call (pipeline ext))).
      rewrite modelUpdates_calls. reflexivity.
Qed.

(** X11. A load seen from the dual-mode scene.  Whatever its outcome, a
    load leaves the mode, the orbit flag and a drag in progress as they
    are.  A load that is unsupported or fails leaves the whole scene
    untouched; a load that succeeds shows its normalized model and points
    the manipulator's attachment target at it. *)
Theorem load_keeps_interaction (s : Scene) (file : File) :
  Reachable s ->
  Reachable (loadIntoScene s file) /\
  showGizmo (loadIntoScene s file) = showGizmo s /\
  isOrbitEnabled (loadIntoScene s file) = isOrbitEnabled s /\
  DragState (loadIntoScene s file) = DragState s /\
  ((modelUpdates (handleFile file) = [] /\ loadIntoScene s file = s) \/
   (exists ext m,
       Succeeds file ext m /\
       model (loadIntoScene s file) = Some m /\
       transformTarget (loadIntoScene s file) = Some TheGroup /\
       isSome (gizmo (loadIntoScene s file)) = showGizmo s)).
Proof.
  intros R. split; [apply Reachable_run; exact R|].
  unfold loadIntoScene.
  destruct (modelUpdates_handleFile file) as [H|(ext & m & _ & _ & S & H)];
    rewrite H.
  - change (run s (map ModelChanged [])) with s.
    repeat split; try reflexivity. left. split; reflexivity.
  - change (run s (map ModelChanged [m])) with (step s (ModelChanged m)).
    destruct (model_change_keeps_interaction s m R)
      as (Hm & Ht & Hg & Ho & Hd).
    split; [exact Hg|]. split; [exact Ho|]. split; [exact Hd|].
    right. exists ext, m. split; [exact S|]. split; [exact Hm|].
    split; [exact Ht|].
    assert (R' : Reachable (step s (ModelChanged m)))
      by (constructor; exact R).
    destruct (Reachable_mount _ R') as [_ Hmount].
    rewrite Hmount, Hm, Hg. reflexivity.
Qed.

End LoadIntoScene.

(* ================================================================== *)
(** ** What [Scene] draws: one material for both kinds of model *)
(* ================================================================== *)

Section DrawnMaterials.
Context {C : Coord}.
Variables (ArrayBuffer Exn : Type).
Variable stl : ArrayBuffer -> Exn + THREE.BufferGeometry.
Variable obj : string -> Exn + THREE.Object3D.
Import THREE.

(** [<meshStandardMaterial color="#c6c6c6" roughness={0.65}
    metalness={0.1} />], the material [Scene] gives the mesh it builds
    around a geometry. *)
Definition sceneMeshMaterial : Material :=
  MeshStandardMaterial "#c6c6c6" (65 # 100) (1 # 10).

(** The materials of the meshes [Scene] draws for a model: the one mesh it
    builds for a geometry, or the meshes of the object given to
    [<primitive>]. *)
Definition drawnMeshMaterials
  (m : ModelPayload (K := viewerCollaborators ArrayBuffer Exn stl obj))
  : list (option Material) :=
  match m with
  | GeometryKind _ => [Some sceneMeshMaterial]
  | ObjectKind o => map material (filter isMesh (nodes o))
  end.

Lemma prepareObject_mesh_materials (o : Object3D) :
  Forall (fun mat => mat = Some uniformMaterial)
         (map material (filter isMesh (nodes (prepareObject o)))).
Proof.
  apply Forall_map. apply Forall_forall. intros d Hd.
  apply filter_In in Hd. destruct Hd as [Hin Hmesh].
  unfold prepareObject in Hin.
  destruct (traverse replaceMaterial o) as [d0 cs0] eqn:Et.
  assert (Hn : nodes (Obj d0 cs0) = map replaceMaterial (nodes o))
    by (rewrite <- Et; apply nodes_traverse).
  simpl in Hin. destruct Hin as [<-|Hin].
  - simpl in *. simpl in Hn.
    destruct (nodes o) as [|r rest] eqn:En; [discriminate|].
    simpl in Hn. injection Hn as -> _.
    apply replaceMaterial_uniform. exact Hmesh.
  - assert (Hin' : In d (nodes (Obj d0 cs0))) by (right; exact Hin).
    rewrite Hn in Hin'. apply in_map_iff in Hin'.
    destruct Hin' as (d1 & <- & _).
    apply replaceMaterial_uniform. exact Hmesh.
Qed.

(** X12. Whatever the file and its format, every mesh the scene draws for
    a model that [handleFile] wrote carries the same uniform material:
    the one [Scene] gives a geometry is the one [prepareObject] gives the
    meshes of an object. *)
Theorem drawn_meshes_share_material
  (file : File (K := viewerCollaborators ArrayBuffer Exn stl obj))
  (m : ModelPayload (K := viewerCollaborators ArrayBuffer Exn stl obj)) :
  In m (modelUpdates (handleFile file)) ->
  Forall (fun mat => mat = Some uniformMaterial) (drawnMeshMaterials m).
Proof.
  intros Hin.
  destruct (modelUpdates_handleFile file)
    as [H|(ext & m' & _ & _ & S & H)]; rewrite H in Hin;
    [destruct Hin|].
  destruct Hin as [<-|[]].
  destruct S as [buf g g' _ _ _ _ ->|txt o o' _ _ _ Hp ->]; simpl.
  - repeat constructor.
  - simpl in Hp. injection Hp as <-. apply prepareObject_mesh_materials.
Qed.

End DrawnMaterials.

(* ================================================================== *)
(** ** Normalizing twice: idempotence in exact arithmetic *)
(* ================================================================== *)

(** The laws of the number type under which re-centring is exact.  They
    hold of the integers and of the rationals; rounded arithmetic keeps
    them only up to rounding, in the last law above all, the one that puts
    the midpoint of a re-centred pair at zero. *)
Record ExactArithmetic (C : Coord) : Prop := {
  sub_zero : forall a : num, sub a zero = a;
  add_neg : forall a c : num, add a (neg c) = sub a c;
  add_sub_l : forall a b c : num, add (sub a c) b = sub (add a b) c;
  add_sub_r : forall a b c : num, add a (sub b c) = sub (add a b) c;
  nmin_sub : forall a b c : num, nmin (sub a c) (sub b c) = sub (nmin a b) c;
  nmax_sub : forall a b c : num, nmax (sub a c) (sub b c) = sub (nmax a b) c;
  midpoint_recentred :
    forall a b : num,
      half (add (sub a (half (add a b))) (sub b (half (add a b)))) = zero
}.

Section Idempotence.
Context {C : Coord}.
Hypothesis exact : ExactArithmetic C.
Import THREE.

Ltac hierarchy_induction o d cs IH :=
  pattern o; revert o; apply Object3D_forall_ind; intros d cs IH.

(** A box moved by [- c]. *)
Definition shiftBox (c : Vector3) (b : Box3) : Box3 :=
  match b with
  | EmptyBox => EmptyBox
  | Box mn mx => Box (vsub mn c) (vsub mx c)
  end.

Lemma vsub_vzero (p : Vector3) : vsub p vzero = p.
Proof.
  destruct p as [a b c]. unfold vsub, vzero. simpl.
  rewrite !(sub_zero C exact). reflexivity.
Qed.

Lemma vadd_vnegate (v c : Vector3) : vadd v (vnegate c) = vsub v c.
Proof. unfold vadd, vnegate, vsub. simpl. rewrite !(add_neg C exact). reflexivity. Qed.

Lemma vadd_vsub_l (a b c : Vector3) : vadd (vsub a c) b = vsub (vadd a b) c.
Proof. unfold vadd, vsub. simpl. rewrite !(add_sub_l C exact). reflexivity. Qed.

Lemma vadd_vsub_r (a b c : Vector3) : vadd a (vsub b c) = vsub (vadd a b) c.
Proof. unfold vadd, vsub. simpl. rewrite !(add_sub_r C exact). reflexivity. Qed.

Lemma expandByPoint_shift (c : Vector3) (b : Box3) (p : Vector3) :
  expandByPoint (shiftBox c b) (vsub p c) = shiftBox c (expandByPoint b p).
Proof.
  destruct b as [|mn mx]; simpl; [reflexivity|].
  unfold vmin, vmax, vsub. simpl.
  rewrite !(nmin_sub C exact), !(nmax_sub C exact). reflexivity.
Qed.

Lemma expandByPoints_shift (c : Vector3) (ps : list Vector3) (b : Box3) :
  expandByPoints (shiftBox c b) (map (fun p => vsub p c) ps)
  = shiftBox c (expandByPoints b ps).
Proof.
  unfold expandByPoints. revert b.
  induction ps as [|p ps IH]; intros b; simpl; [reflexivity|].
  rewrite expandByPoint_shift. apply IH.
Qed.

(** The centre of a box moved by its own centre is the origin. *)
Lemma getCenter_recentred (b : Box3) :
  getCenter (shiftBox (getCenter b) b) = vzero.
Proof.
  destruct b as [|mn mx]; simpl; [reflexivity|].
  unfold vhalf, vadd, vsub, vzero. simpl.
  rewrite !(midpoint_recentred C exact). reflexivity.
Qed.

(** What [expandByObject] does below a node whose world position is
    [world]: the node's own vertices, then its children. *)
Definition expandBelow (world : Vector3) (b : Box3) (d : NodeData)
  (cs : list Object3D) : Box3 :=
  fold_left (expandByObject world) cs
    (match geometry d with
     | Some g => expandByPoints b (map (vadd world) g)
     | None => b
     end).

Lemma expandBelow_shift (c world : Vector3) (b : Box3) (d : NodeData)
  (cs : list Object3D) :
  Forall (fun o => forall origin b0,
              expandByObject (vsub origin c) (shiftBox c b0) o
              = shiftBox c (expandByObject origin b0 o)) cs ->
  expandBelow (vsub world c) (shiftBox c b) d cs
  = shiftBox c (expandBelow world b d cs).
Proof.
  intros IH. unfold expandBelow.
  assert (Hg : match geometry d with
               | Some g =>
                   expandByPoints (shiftBox c b) (map (vadd (vsub world c)) g)
               | None => shiftBox c b
               end
               = shiftBox c (match geometry d with
                             | Some g => expandByPoints b (map (vadd world) g)
                             | None => b
                             end)).
  { destruct (geometry d) as [g|]; [|reflexivity].
    rewrite <- expandByPoints_shift, map_map. f_equal.
    apply map_ext. intros v. apply vadd_vsub_l. }
  rewrite Hg.
  generalize (match geometry d with
              | Some g => expandByPoints b (map (vadd world) g)
              | None => b
              end) as b'.
  induction IH as [|o cs Ho _ IHcs]; intros b'; simpl; [reflexivity|].
  rewrite Ho. apply IHcs.
Qed.

(** Moving the origin by [- c] moves the box of a hierarchy by [- c]. *)
Lemma expandByObject_shift (c : Vector3) (o : Object3D) :
  forall origin b,
    expandByObject (vsub origin c) (shiftBox c b) o
    = shiftBox c (expandByObject origin b o).
Proof.
  hierarchy_induction o d cs IH. intros origin b.
  change (expandBelow (vadd (vsub origin c) (position d)) (shiftBox c b) d cs
          = shiftBox c (expandBelow (vadd origin (position d)) b d cs)).
  rewrite vadd_vsub_l. apply expandBelow_shift. exact IH.
Qed.

(** The box of a centred object is the box of the object moved by its
    centre. *)
Lemma setFromObject_centerObject (o : Object3D) :
  setFromObject (centerObject o)
  = shiftBox (getCenter (setFromObject o)) (setFromObject o).
Proof.
  destruct o as [d cs]. unfold centerObject, setFromObject. simpl data.
  simpl children. set (c := getCenter (expandByObject vzero EmptyBox (Obj d cs))).
  change (expandBelow (vadd vzero (vsub (position d) c)) (shiftBox c EmptyBox)
            (setPosition (vsub (position d) c) d) cs
          = shiftBox c (expandBelow (vadd vzero (position d)) EmptyBox d cs)).
  rewrite vadd_vsub_r.
  change (expandBelow (vsub (vadd vzero (position d)) c) (shiftBox c EmptyBox)
            (setPosition (vsub (position d) c) d) cs)
    with (expandBelow (vsub (vadd vzero (position d)) c) (shiftBox c EmptyBox)
            d cs).
  apply expandBelow_shift.
  apply Forall_forall. intros o _. apply expandByObject_shift.
Qed.

Lemma centerObject_idem (o : Object3D) :
  getCenter (setFromObject (centerObject o)) = vzero /\
  centerObject (centerObject o) = centerObject o.
Proof.
  assert (Hc : getCenter (setFromObject (centerObject o)) = vzero)
    by (rewrite setFromObject_centerObject; apply getCenter_recentred).
  split; [exact Hc|].
  unfold centerObject at 1. rewrite Hc, vsub_vzero.
  destruct o as [[m mat g p] cs]. reflexivity.
Qed.

Lemma center_as_shift (g : BufferGeometry) :
  center g = map (fun v => vsub v (getCenter (computeBoundingBox g))) g.
Proof. unfold center. apply map_ext. intros v. apply vadd_vnegate. Qed.

Lemma center_idem (g : BufferGeometry) :
  getCenter (computeBoundingBox (center g)) = vzero /\
  center (center g) = center g.
Proof.
  assert (Hc : getCenter (computeBoundingBox (center g)) = vzero).
  { rewrite center_as_shift. unfold computeBoundingBox.
    change EmptyBox
      with (shiftBox (getCenter (expandByPoints EmptyBox g)) EmptyBox) at 1.
    rewrite expandByPoints_shift. apply getCenter_recentred. }
  split; [exact Hc|].
  rewrite (center_as_shift (center g)), Hc.
  rewrite <- (map_id (center g)) at 2. apply map_ext. apply vsub_vzero.
Qed.

Lemma centerObject_after_materials (o : Object3D) :
  traverse replaceMaterial (centerObject o)
  = centerObject (traverse replaceMaterial o).
Proof.
  unfold centerObject.
  assert (Hbox : setFromObject (traverse replaceMaterial o) = setFromObject o).
  { unfold setFromObject. apply expandByObject_traverse.
    - apply replaceMaterial_geometry.
    - apply replaceMaterial_position. }
  rewrite Hbox. destruct o as [d cs]. simpl.
  rewrite replaceMaterial_setPosition, replaceMaterial_position. reflexivity.
Qed.


End Idempotence.

(* ================================================================== *)
(** ** The further properties at concrete inputs *)
(* ================================================================== *)

Section MoreExamples.
Import THREE Fixture.
#[local] Existing Instance zCoord.
#[local] Existing Instance viewer.

Definition centredTriangle : BufferGeometry :=
  [vec3 (-1) (-1) (-1); vec3 1 (-1) (-1); vec3 (-1) 1 1]%Z.

Definition parsedTriangle : BufferGeometry :=
  [vec3 4 4 4; vec3 6 4 4; vec3 4 6 6]%Z.

Definition preparedSceneObj : Object3D := prepareObject sceneObj.

Definition cubeModel : ModelPayload (K := viewer) :=
  GeometryKind (K := viewer) centredTriangle.
Definition sceneModel : ModelPayload (K := viewer) :=
  ObjectKind (K := viewer) preparedSceneObj.

Definition sliderMoves : list (SliderViewer.Event (C := zCoord)) :=
  [SliderViewer.SliderChanged SliderViewer.AxisX 90%Z;
   SliderViewer.SliderChanged SliderViewer.AxisY (-45)%Z;
   SliderViewer.SliderChanged SliderViewer.AxisX 30%Z].

Lemma zCoord_exact : ExactArithmetic zCoord.
Proof.
  constructor; simpl; intros; try lia.
  apply Z.div_small.
  pose proof (Z.div_mod (a + b) 2 ltac:(lia)) as Hd.
  pose proof (Z.mod_pos_bound (a + b) 2 ltac:(lia)) as Hb.
  lia.
Qed.


Lemma cube_STL_succeeds :
  Succeeds cube_STL "stl" cubeModel.
Proof.
  apply succeed_stl
    with (buf := [80%Z]) (g := parsedTriangle) (g' := centredTriangle);
    reflexivity.
Qed.

Lemma scene_obj_succeeds :
  Succeeds scene_obj "obj" sceneModel.
Proof.
  apply succeed_obj
    with (txt := "v 0 0 0") (o := sceneObj) (o' := preparedSceneObj);
    try reflexivity. discriminate.
Qed.

Lemma successful_load_replaces_model_witness :
  model (load showingModel cube_STL) = Some cubeModel /\
  status (load showingModel cube_STL) = "Loaded cube.STL" /\
  statusUpdates (handleFile cube_STL)
  = ["Loading cube.STL..."; "Loaded cube.STL"].
Proof.
  destruct (successful_load_replaces_model cube_STL "stl"
              cubeModel showingModel
              eq_refl eq_refl cube_STL_succeeds) as (Hm & Hs & Hu & _).
  split; [exact Hm|]. split; [exact Hs|exact Hu].
Defined.

Lemma dispatch_by_extension_witness :
  calls (handleFile zero_byte_stl) = [FileArrayBuffer; STLParse] /\
  modelUpdates (handleFile zero_byte_stl) = [] /\
  calls (handleFile scene_obj) = [FileText; OBJParse; PrepareObject] /\
  modelUpdates (handleFile scene_obj) = [sceneModel].
Proof.
  destruct (dispatch_by_extension zero_byte_stl "stl" eq_refl eq_refl)
    as [(_ & Hc1 & Hm1)|(Hx & _)]; [|discriminate Hx].
  destruct (dispatch_by_extension scene_obj "obj" eq_refl eq_refl)
    as [(Hx & _)|(_ & Hc2 & Hm2)]; [discriminate Hx|].
  split; [exact Hc1|]. split; [exact Hm1|]. split; [exact Hc2|exact Hm2].
Defined.

(** Two overlapping loads: [scene.obj] finishes first and the zero-byte
    STL fails last.  The status reports the failure over the model of
    [scene.obj]; it does not claim a model it did not load. *)
Example overlapping_loads :
  let st := runTurns initialApp
              [Start zero_byte_stl; Start scene_obj;
               Resume scene_obj; Resume zero_byte_stl] in
  status st = msgFailed /\
  model st = Some sceneModel.
Proof. split; reflexivity. Qed.

Lemma classification_ignores_case_witness :
  extensionOf "Model.STL" = extensionOf "MODEL.stl" /\
  unsupported (extensionOf "Model.STL") = false.
Proof.
  destruct (classification_ignores_case "Model.STL" "MODEL.stl"
              eq_refl eq_refl eq_refl) as [He _].
  split; [exact He|reflexivity].
Defined.

Lemma manipulator_mounted_iff_witness :
  DualMode.gizmo (K := viewer) DualMode.initialScene = None /\
  DualMode.isSome (DualMode.gizmo loadedScene) = true /\
  DualMode.gizmo
    (DualMode.step draggingScene (DualMode.ShowGizmoChanged false)) = None.
Proof.
  destruct (manipulator_mounted_iff (K := viewer) DualMode.initialScene)
    as (_ & _ & Hn & _); [constructor|].
  destruct (manipulator_mounted_iff loadedScene) as (Hl & _);
    [apply Reachable_run; constructor|].
  destruct (manipulator_mounted_iff
              (DualMode.step draggingScene (DualMode.ShowGizmoChanged false)))
    as (_ & _ & _ & Ho);
    [constructor; apply Reachable_run; apply Reachable_run; constructor|].
  split; [apply Hn; reflexivity|]. split; [exact Hl|].
  apply Ho. reflexivity.
Defined.

Lemma load_keeps_interaction_witness :
  DualMode.DragState (loadIntoScene draggingScene scene_obj) = true /\
  DualMode.isOrbitEnabled (loadIntoScene draggingScene scene_obj)
  = Some false /\
  DualMode.model (loadIntoScene draggingScene scene_obj)
  = Some sceneModel /\
  loadIntoScene draggingScene zero_byte_stl = draggingScene.
Proof.
  assert (R : DualMode.Reachable draggingScene)
    by (apply Reachable_run; apply Reachable_run; constructor).
  destruct (load_keeps_interaction draggingScene scene_obj R)
    as (_ & _ & Ho & Hd & _).
  destruct (load_keeps_interaction draggingScene zero_byte_stl R)
    as (_ & _ & _ & _ & [[_ Hs]|(ext & m & S & _)]).
  - split; [rewrite Hd; reflexivity|].
    split; [rewrite Ho; reflexivity|]. split; [reflexivity|exact Hs].
  - exfalso.
    destruct S as [buf g g' _ H2 H3 _ _|txt o o' _ H2 H3 _ _];
      simpl in H2; injection H2 as <-; simpl in H3; discriminate H3.
Defined.

Lemma toggle_round_trip_witness :
  DualMode.step
    (DualMode.step loadedScene (DualMode.ShowGizmoChanged false))
    (DualMode.ShowGizmoChanged true) = loadedScene /\
  DualMode.DragState
    (DualMode.step
       (DualMode.step draggingScene (DualMode.ShowGizmoChanged false))
       (DualMode.ShowGizmoChanged true)) = false.
Proof.
  destruct (toggle_round_trip loadedScene) as [H1 _];
    [apply Reachable_run; constructor|].
  destruct (toggle_round_trip draggingScene) as [H2 _];
    [apply Reachable_run; apply Reachable_run; constructor|].
  destruct (H1 eq_refl) as (_ & _ & _ & _ & Hs).
  destruct (H2 eq_refl) as (_ & _ & Hd & _).
  split; [apply Hs; reflexivity|exact Hd].
Defined.

Lemma drawn_meshes_share_material_witness :
  drawnMeshMaterials (list Z) string stl obj sceneModel
  = [Some uniformMaterial] /\
  Forall (fun mat => mat = Some uniformMaterial)
    (drawnMeshMaterials (list Z) string stl obj cubeModel).
Proof.
  split; [reflexivity|].
  apply (drawn_meshes_share_material (list Z) string stl obj cube_STL).
  left. reflexivity.
Defined.

Lemma rotation_is_last_write_witness :
  SliderViewer.run SliderViewer.zeroRotation sliderMoves
  = SliderViewer.mkRotation 30%Z (-45)%Z 0%Z /\
  (-180 <= SliderViewer.get SliderViewer.AxisX
             (SliderViewer.run SliderViewer.zeroRotation sliderMoves)
        <= 180)%Z /\
  SliderViewer.run SliderViewer.zeroRotation
    (sliderMoves ++ [SliderViewer.ResetClicked]) = SliderViewer.zeroRotation.
Proof.
  destruct (rotation_is_last_write (C := zCoord)) as [_ Hrange].
  split; [reflexivity|]. split; [|reflexivity].
  apply (Hrange (fun v : Z => (-180 <= v <= 180)%Z)).
  - simpl. lia.
  - repeat constructor; simpl; lia.
Defined.

End MoreExamples.
